(** * SlackBot ([spp.py]): message routing and the LLM gateway

    A shallow embedding of [src/spp.py] and of the parts of its runtime the
    program's behaviour rests on:

    - Python values, dictionaries and exceptions ([Py]);
    - the fragment of the [re] module the program's patterns use ([Re]);
    - the [requests] calls of the gateway ([Requests]);
    - the listener loop of [slack_bolt.App] ([Bolt]);
    - the handlers and the gateway of [spp.py], under their own names.

    Texts are strings of 8-bit characters.  The character classes of [re]
    are those of the ASCII range: [\w] is [[A-Za-z0-9_]], [re.IGNORECASE]
    folds [A-Z] onto [a-z], and [str.strip] removes the ASCII white space. *)

From Stdlib Require Import String Ascii List ZArith Bool Lia.
From Stdlib Require Import DecimalString.
Import ListNotations.
Local Open Scope list_scope.
Local Open Scope string_scope.

Set Implicit Arguments.
Set Warnings "-register-all".

(* ===================================================================== *)
(** ** Characters and strings *)
(* ===================================================================== *)

Module Text.

Definition code (c : ascii) : nat := nat_of_ascii c.

Definition between (lo hi : nat) (c : ascii) : bool :=
  Nat.leb lo (code c) && Nat.leb (code c) hi.

Definition is_upper := between 65 90.
Definition is_lower := between 97 122.
Definition is_digit := between 48 57.

(** [\w]: a letter, a digit or the underscore. *)
Definition is_word (c : ascii) : bool :=
  is_upper c || is_lower c || is_digit c || Ascii.eqb c "_".

(** White space of [str.strip]: TAB, LF, VT, FF, CR, FS, GS, RS, US, SPACE. *)
Definition is_space (c : ascii) : bool :=
  between 9 13 c || between 28 32 c.

Definition lower (c : ascii) : ascii :=
  if is_upper c then ascii_of_nat (code c + 32) else c.

(** Equality of two characters, under [re.IGNORECASE] when [ic] is set. *)
Definition char_eq (ic : bool) (a b : ascii) : bool :=
  if ic then Ascii.eqb (lower a) (lower b) else Ascii.eqb a b.

Definition is_empty (s : string) : bool :=
  match s with EmptyString => true | String _ _ => false end.

Fixpoint lstrip (s : string) : string :=
  match s with
  | String c s' => if is_space c then lstrip s' else s
  | EmptyString => EmptyString
  end.

Fixpoint rstrip (s : string) : string :=
  match s with
  | String c s' =>
      let r := rstrip s' in
      if is_space c && is_empty r then EmptyString else String c r
  | EmptyString => EmptyString
  end.

(** [s.strip()] *)
Definition strip (s : string) : string := rstrip (lstrip s).

Fixpoint all_chars (p : ascii -> bool) (s : string) : bool :=
  match s with
  | String c s' => p c && all_chars p s'
  | EmptyString => true
  end.

(** [needle in s] *)
Fixpoint contains (needle s : string) : bool :=
  prefix needle s
  || match s with
     | String _ s' => contains needle s'
     | EmptyString => false
     end.

End Text.

(* ===================================================================== *)
(** ** The fragment of [re] the program uses *)
(* ===================================================================== *)

Module Re.
Import Text.

(** A single-character item: a literal character or the class [\w]. *)
Inductive atom : Type :=
| Chr (c : ascii)
| Word.

(** Patterns.  Repetition is applied to atoms only, which is all the
    program's patterns need ([\w+], [\??]). *)
Inductive regex : Type :=
| Eps
| Atom (a : atom)
| Seq (r1 r2 : regex)
| Alt (r1 r2 : regex)
| Opt (a : atom)            (* a?  greedy *)
| Plus (a : atom)           (* a+  greedy *)
| Bol                       (* ^   without re.MULTILINE *)
| Boundary.                 (* \b *)

(** A compiled pattern: the expression and the [re.IGNORECASE] flag. *)
Record pattern : Type := Pattern { expr : regex; ignorecase : bool }.

Definition atom_ok (ic : bool) (a : atom) (c : ascii) : bool :=
  match a with
  | Chr x => char_eq ic x c
  | Word => is_word c
  end.

Definition word_opt (c : option ascii) : bool :=
  match c with Some x => is_word x | None => false end.

Definition head (s : string) : option ascii :=
  match s with String c _ => Some c | EmptyString => None end.

(** A continuation receives the character before the current position
    and the rest of the subject; it answers with what is left after the
    whole match, or [None] for the engine to backtrack. *)
Definition cont : Type := option ascii -> string -> option string.

(** [a*] followed by [k], longest repetition first. *)
Fixpoint star (ic : bool) (a : atom) (prev : option ascii) (s : string)
         (k : cont) : option string :=
  match s with
  | String c s' =>
      if atom_ok ic a c then
        match star ic a (Some c) s' k with
        | Some r => Some r
        | None => k prev s
        end
      else k prev s
  | EmptyString => k prev s
  end.

(** The backtracking matcher: [r] from the current position, then [k].
    Alternatives are tried left to right. *)
Fixpoint run (ic : bool) (r : regex) (prev : option ascii) (s : string)
         (k : cont) : option string :=
  match r with
  | Eps => k prev s
  | Atom a =>
      match s with
      | String c s' => if atom_ok ic a c then k (Some c) s' else None
      | EmptyString => None
      end
  | Seq r1 r2 => run ic r1 prev s (fun p t => run ic r2 p t k)
  | Alt r1 r2 =>
      match run ic r1 prev s k with
      | Some t => Some t
      | None => run ic r2 prev s k
      end
  | Opt a =>
      match s with
      | String c s' =>
          if atom_ok ic a c then
            match k (Some c) s' with
            | Some t => Some t
            | None => k prev s
            end
          else k prev s
      | EmptyString => k prev s
      end
  | Plus a =>
      match s with
      | String c s' => if atom_ok ic a c then star ic a (Some c) s' k else None
      | EmptyString => None
      end
  | Bol => match prev with None => k prev s | Some _ => None end
  | Boundary =>
      if xorb (word_opt prev) (word_opt (head s)) then k prev s else None
  end.

(** A match of [p] that starts at the current position: what is left of
    the subject after it. *)
Definition match_here (p : pattern) (prev : option ascii) (s : string)
  : option string :=
  run (ignorecase p) (expr p) prev s (fun _ t => Some t).

Fixpoint search_from (p : pattern) (prev : option ascii) (s : string) : bool :=
  match match_here p prev s with
  | Some _ => true
  | None =>
      match s with
      | String c s' => search_from p (Some c) s'
      | EmptyString => false
      end
  end.

(** [re.search(p, s)] as a truth value (also: [re.findall(p, s) != []]). *)
Definition search (p : pattern) (s : string) : bool := search_from p None s.

(** [re.sub(p, "", s)]: the leftmost matches, one after the other, are
    left out.  [skip] counts the characters of the current match still to
    be passed over.  An empty match removes nothing. *)
Fixpoint sub_from (p : pattern) (skip : nat) (prev : option ascii)
         (s : string) : string :=
  match s with
  | String c s' =>
      match skip with
      | S n => sub_from p n (Some c) s'
      | O =>
          match match_here p prev s with
          | Some rest =>
              match String.length s - String.length rest with
              | S n => sub_from p n (Some c) s'
              | O => String c (sub_from p 0 (Some c) s')
              end
          | None => String c (sub_from p 0 (Some c) s')
          end
      end
  | EmptyString => EmptyString
  end.

Definition sub_empty (p : pattern) (s : string) : string :=
  sub_from p 0 None s.

(** A pattern without metacharacters, read character by character. *)
Fixpoint lit (s : string) : regex :=
  match s with
  | String c s' => Seq (Atom (Chr c)) (lit s')
  | EmptyString => Eps
  end.

End Re.

(* ===================================================================== *)
(** ** Python values, exceptions and effects *)
(* ===================================================================== *)

Module Py.
Import Text.

(** The values a JSON document decodes to (numbers are the integers).  A
    [dict] is kept as the list of its items; a key is looked up from the
    front. *)
Inductive value : Type :=
| VNone
| VBool (b : bool)
| VInt (z : Z)
| VStr (s : string)
| VList (items : list value)
| VDict (items : list (string * value)).

Definition dict : Type := list (string * value).

Fixpoint lookup (k : string) (d : dict) : option value :=
  match d with
  | (k', v) :: d' => if String.eqb k k' then Some v else lookup k d'
  | [] => None
  end.

(** [k in d] *)
Definition has_key (k : string) (d : dict) : bool :=
  match lookup k d with Some _ => true | None => false end.

(** [d.get(k, default)] on a dict *)
Definition get (d : dict) (k : string) (default : value) : value :=
  match lookup k d with Some v => v | None => default end.

(** [v == s] for a string literal [s] *)
Definition eq_str (v : value) (s : string) : bool :=
  match v with VStr t => String.eqb t s | _ => false end.

(** The truth value of [v] in a condition. *)
Definition truthy (v : value) : bool :=
  match v with
  | VNone => false
  | VBool b => b
  | VInt z => negb (Z.eqb z 0)
  | VStr s => negb (is_empty s)
  | VList l => match l with [] => false | _ => true end
  | VDict d => match d with [] => false | _ => true end
  end.

Inductive exn : Type :=
| KeyError (key : string)
| IndexError
| TypeError
| AttributeError
| JSONDecodeError
| HTTPError (text : string)          (* requests.exceptions.HTTPError *)
| TransportError (text : string).    (* any other RequestException of requests.post *)

Inductive result (A : Type) : Type :=
| Return (a : A)
| Raise (e : exn).
Arguments Return {A} a.
Arguments Raise {A} e.

(** What [requests.post] meets on the network. *)
Inductive reply : Type :=
| Failure (text : string)
    (* no response: a RequestException whose text is [text] *)
| Answer (status_code : Z) (reason : string) (body : option value).
    (* a response; [body] is [None] when it is not a JSON document *)

(** Everything the program does not decide itself. *)
Record World : Type := {
  network : string -> value -> reply;  (* the answer to a POST of a JSON value *)
  random_int : nat;                    (* the draw of [random.choice] *)
  json_error_is_request_exception : bool;
      (* requests >= 2.27 raises its own JSONDecodeError, a RequestException *)
  repr : value -> string               (* the text [str] gives a value that is not a str *)
}.

(** The module-level names of [spp.py] bound from the environment. *)
Record Globals : Type := {
  SLACK_BOT_TOKEN : option string;
  SLACK_APP_TOKEN : option string;
  GEMINI_API_KEY : option string
}.

Inductive effect : Type :=
| Say (text : string)                               (* say(text) *)
| Stdout (line : string)                            (* print(line) *)
| HttpPost (url : string) (headers : dict) (data : value)
    (* requests.post(url, headers=headers, data=json.dumps(data)) *)
| Call (function : string) (argument : string).
    (* entry into a function of the program, recorded for the statements *)

Record outcome (A : Type) : Type := Outcome {
  globals_after : Globals;
  trace : list effect;
  value_of : result A
}.
Arguments Outcome {A} _ _ _.

(** Computations: read the world, thread the globals, log the effects,
    return or raise. *)
Definition M (A : Type) : Type := World -> Globals -> outcome A.

Definition ret {A} (a : A) : M A := fun _ g => Outcome g [] (Return a).

Definition raise {A} (e : exn) : M A := fun _ g => Outcome g [] (Raise e).

Definition bind {A B} (m : M A) (f : A -> M B) : M B :=
  fun w g =>
    let o := m w g in
    match value_of o with
    | Return a =>
        let o' := f a w (globals_after o) in
        Outcome (globals_after o') (trace o ++ trace o')%list (value_of o')
    | Raise e => Outcome (globals_after o) (trace o) (Raise e)
    end.

Definition emit (e : effect) : M unit := fun _ g => Outcome g [e] (Return tt).

Definition world : M World := fun w g => Outcome g [] (Return w).

Definition global {A} (name : Globals -> A) : M A :=
  fun _ g => Outcome g [] (Return (name g)).

(** [try: body  except <caught> as e: handler e] *)
Definition try_except {A} (body : M A) (caught : World -> exn -> bool)
           (handler : exn -> M A) : M A :=
  fun w g =>
    let o := body w g in
    match value_of o with
    | Return a => o
    | Raise e =>
        if caught w e then
          let o' := handler e w (globals_after o) in
          Outcome (globals_after o') (trace o ++ trace o')%list (value_of o')
        else o
    end.

Declare Scope py_scope.
Delimit Scope py_scope with py.
Notation "x <- m ;; k" := (bind m (fun x => k))
  (at level 61, m at next level, right associativity) : py_scope.
Notation "m ;; k" := (bind m (fun _ => k))
  (at level 61, right associativity) : py_scope.
Local Open Scope py_scope.

Definition say (text : string) : M unit := emit (Say text).
Definition print (line : string) : M unit := emit (Stdout line).

(** [str(v)], as an f-string field formats it. *)
Definition str (v : value) : M string :=
  w <- world ;;
  ret (match v with VStr s => s | _ => repr w v end).

(** [d[k]] on a dict *)
Definition getitem (d : dict) (k : string) : M value :=
  match lookup k d with
  | Some v => ret v
  | None => raise (KeyError k)
  end.

(** [v.get(k, default)] on any value: only a dict has the method. *)
Definition dot_get (v : value) (k : string) (default : value) : M value :=
  match v with
  | VDict d => ret (get d k default)
  | _ => raise AttributeError
  end.

(** [v[0]] on any value. *)
Definition index0 (v : value) : M value :=
  match v with
  | VList (x :: _) => ret x
  | VList [] => raise IndexError
  | VStr (String c _) => ret (VStr (String c EmptyString))
  | VStr EmptyString => raise IndexError
  | VDict _ => raise (KeyError "0")
  | _ => raise TypeError
  end.

(** [re.search(p, v)] as a truth value; the subject must be a str. *)
Definition re_search (p : Re.pattern) (v : value) : M bool :=
  match v with
  | VStr s => ret (Re.search p s)
  | _ => raise TypeError
  end.

(** [re.sub(p, "", v)] *)
Definition re_sub_empty (p : Re.pattern) (v : value) : M string :=
  match v with
  | VStr s => ret (Re.sub_empty p s)
  | _ => raise TypeError
  end.

(** [random.choice(l)] *)
Definition random_choice (l : list string) : M string :=
  w <- world ;;
  match l with
  | [] => raise IndexError
  | x :: _ => ret (nth (random_int w mod List.length l) l x)
  end.

End Py.

(* ===================================================================== *)
(** ** [requests]: the two calls of the gateway *)
(* ===================================================================== *)

Module Requests.
Import Py.
Local Open Scope py_scope.

Record Response : Type := {
  url : string;
  status_code : Z;
  reason : string;
  body : option value
}.

Definition post (api_url : string) (headers : dict) (data : value) : M Response :=
  emit (HttpPost api_url headers data) ;;
  w <- world ;;
  match network w api_url data with
  | Failure text => raise (TransportError text)
  | Answer code why doc =>
      ret {| url := api_url; status_code := code; reason := why; body := doc |}
  end.

Definition decimal (z : Z) : string := NilZero.string_of_int (Z.to_int z).

(** [Response.raise_for_status]: an HTTPError for a 4xx or 5xx status,
    whose text names the status, the reason and the URL. *)
Definition raise_for_status (r : Response) : M unit :=
  if (400 <=? status_code r)%Z && (status_code r <? 500)%Z then
    raise (HTTPError (decimal (status_code r) ++ " Client Error: "
                      ++ reason r ++ " for url: " ++ url r))
  else if (500 <=? status_code r)%Z && (status_code r <? 600)%Z then
    raise (HTTPError (decimal (status_code r) ++ " Server Error: "
                      ++ reason r ++ " for url: " ++ url r))
  else ret tt.

(** [Response.json] *)
Definition json (r : Response) : M value :=
  match body r with
  | Some doc => ret doc
  | None => raise JSONDecodeError
  end.

(** [isinstance(e, requests.exceptions.RequestException)] *)
Definition is_RequestException (w : World) (e : exn) : bool :=
  match e with
  | HTTPError _ | TransportError _ => true
  | JSONDecodeError => json_error_is_request_exception w
  | _ => false
  end.

(** [str(e)] of an exception *)
Definition text_of (e : exn) : string :=
  match e with
  | HTTPError t | TransportError t => t
  | KeyError k => "'" ++ k ++ "'"
  | IndexError => "list index out of range"
  | JSONDecodeError => "Expecting value: line 1 column 1 (char 0)"
  | TypeError | AttributeError => ""
  end.

End Requests.

(* ===================================================================== *)
(** ** [slack_bolt.App]: listeners and their dispatch *)
(* ===================================================================== *)

Module Bolt.
Import Py.
Local Open Scope py_scope.

(** The program registers its handlers with the decorators [@app.message]
    and [@app.event] and leaves the rest to [slack_bolt]:
    - [App.message(keyword)] listens to events of type ["message"] with no
      subtype or one of three, behind the middleware
      [MessageListenerMatches(keyword)];
    - [App.event(type)] listens to every event of that type;
    - [App.dispatch] walks the listeners in the order of registration and
      runs the first one that takes the event.
    The model starts where the listener loop starts: at an event that has
    passed the global middleware. *)

(** How a listener was registered. *)
Inductive registration : Type :=
| message (keyword : Re.pattern)     (* @app.message(keyword) *)
| event (type : string).             (* @app.event(type) *)

Record listener : Type := Listener {
  registered : registration;
  function : dict -> M unit
}.

(** The subtypes [App.message] listens to: none, and these three. *)
Definition message_subtypes : list string :=
  ["bot_message"; "thread_broadcast"; "file_share"].

Definition subtype_ok (ev : dict) : bool :=
  match get ev "subtype" VNone with
  | VNone => true
  | actual => existsb (eq_str actual) message_subtypes
  end.

(** The listener's matcher on the event payload. *)
Definition matches (l : listener) (ev : dict) : M bool :=
  type <- getitem ev "type" ;;
  match registered l with
  | message _ => ret (eq_str type "message" && subtype_ok ev)
  | event t => ret (eq_str type t)
  end.

(** The middleware of a listener.  [App.message] installs
    [MessageListenerMatches]: it lets the request through ([next()]) when
    the event has a text in which the keyword is found, anywhere
    ([re.findall(keyword, text)]).  [App.event] installs none. *)
Definition middleware_passes (l : listener) (ev : dict) : M bool :=
  match registered l with
  | message keyword =>
      let text := get ev "text" (VStr "") in
      if truthy text then re_search keyword text else ret false
  | event _ => ret true
  end.

(** The listener takes the event: its matcher holds and its middleware
    calls [next()]. *)
Definition accepts (l : listener) (ev : dict) : M bool :=
  ok <- matches l ev ;;
  if ok then middleware_passes l ev else ret false.

(** [App.dispatch], from the listener loop on: the listeners are tried in
    the order of their registration, and the first one that accepts the
    event is run; no other listener is tried after it. *)
Fixpoint dispatch (listeners : list listener) (ev : dict) : M unit :=
  match listeners with
  | l :: rest =>
      taken <- accepts l ev ;;
      if taken then function l ev else dispatch rest ev
  | [] => ret tt
  end.

End Bolt.

(* ===================================================================== *)
(** ** [spp.py] *)
(* ===================================================================== *)

Import Text Py.
Local Open Scope py_scope.

(** [os.environ.get] of the three names, at import time. *)
Definition load_globals (environ : string -> option string) : Globals :=
  {| SLACK_BOT_TOKEN := environ "SLACK_BOT_TOKEN";
     SLACK_APP_TOKEN := environ "SLACK_APP_TOKEN";
     GEMINI_API_KEY := environ "GEMINI_API_KEY" |}.

(** The patterns of the decorators and of the fallback. *)

(** [re.compile(r"^(hello|hi)\b", re.IGNORECASE)] *)
Definition re_hello : Re.pattern :=
  Re.Pattern
    (Re.Seq Re.Bol (Re.Seq (Re.Alt (Re.lit "hello") (Re.lit "hi")) Re.Boundary))
    true.

(** [re.compile(r"how are you\??", re.IGNORECASE)] *)
Definition re_status : Re.pattern :=
  Re.Pattern (Re.Seq (Re.lit "how are you") (Re.Opt (Re.Chr "?"))) true.

(** The keyword ["ping"], which Bolt hands to [re] as it is. *)
Definition re_ping : Re.pattern := Re.Pattern (Re.lit "ping") false.

(** [re.compile(r"thanks|thank you", re.IGNORECASE)] *)
Definition re_thanks : Re.pattern :=
  Re.Pattern (Re.Alt (Re.lit "thanks") (Re.lit "thank you")) true.

(** The keyword ["give me a tip"]. *)
Definition re_tip : Re.pattern := Re.Pattern (Re.lit "give me a tip") false.

(** [re.compile(r"^(bye|goodbye)\b", re.IGNORECASE)] *)
Definition re_bye : Re.pattern :=
  Re.Pattern
    (Re.Seq Re.Bol (Re.Seq (Re.Alt (Re.lit "bye") (Re.lit "goodbye")) Re.Boundary))
    true.

(** [r"<@\w+>"] *)
Definition re_mention : Re.pattern :=
  Re.Pattern (Re.Seq (Re.lit "<@") (Re.Seq (Re.Plus Re.Word) (Re.lit ">"))) false.

Definition message_hello (message : dict) : M unit :=
  user <- getitem message "user" ;;
  u <- str user ;;
  say ("Hello, <@" ++ u ++ ">! 👋").

Definition message_status (message : dict) : M unit :=
  user <- getitem message "user" ;;
  u <- str user ;;
  say ("I'm doing great, <@" ++ u ++ ">! Thanks for asking.").

Definition ping_pong (message : dict) : M unit :=
  say "pong".

Definition thank_you_response (message : dict) : M unit :=
  user <- getitem message "user" ;;
  u <- str user ;;
  say ("You're welcome, <@" ++ u ++ ">!").

Definition tips : list string :=
  [ "Remember to stretch before coding.";
    "Take a short break every hour.";
    "Stay hydrated!" ].

Definition give_tip (message : dict) : M unit :=
  tip <- random_choice tips ;;
  say tip.

Definition message_bye (message : dict) : M unit :=
  user <- getitem message "user" ;;
  u <- str user ;;
  say ("Goodbye, <@" ++ u ++ ">! Hope to talk to you again soon.").

Definition welcome_new_member (event : dict) : M unit :=
  user_id <- getitem event "user" ;;
  u <- str user_id ;;
  say ("Welcome, <@" ++ u ++ ">! I'm glad you're here.").

Definition offline_reply : string :=
  "I can't answer that right now. My AI brain is offline.".

Definition trouble_reply : string :=
  "I'm having trouble connecting to my knowledge base right now. Please try again later.".

Definition api_base : string :=
  "https://generativelanguage.googleapis.com/v1beta/models/gemini-pro:generateContent?key=".

(** [not GEMINI_API_KEY]: the name is unset, or set to the empty string. *)
Definition key_missing (key : option string) : bool :=
  match key with
  | None => true
  | Some k => is_empty k
  end.

Definition key_text (key : option string) : string :=
  match key with Some k => k | None => "None" end.

(** The gateway.  Its first effect records the call and its prompt, so
    that the statements can tell whether, and with what, it was entered. *)
Definition get_gemini_response (prompt : string) : M value :=
  emit (Call "get_gemini_response" prompt) ;;
  key <- global GEMINI_API_KEY ;;
  if key_missing key then
    print "GEMINI_API_KEY is not set." ;;
    ret (VStr offline_reply)
  else
    let headers := [("Content-Type", VStr "application/json")] in
    let payload :=
      VDict [("contents",
              VList [VDict [("parts", VList [VDict [("text", VStr prompt)]])]])] in
    let api_url := api_base ++ key_text key in
    try_except
      (response <- Requests.post api_url headers payload ;;
       Requests.raise_for_status response ;;
       result <- Requests.json response ;;
       candidates <- dot_get result "candidates" (VList [VDict []]) ;;
       candidate <- index0 candidates ;;
       content <- dot_get candidate "content" (VDict []) ;;
       parts <- dot_get content "parts" (VList [VDict []]) ;;
       part <- index0 parts ;;
       text <- dot_get part "text" (VStr "No response found.") ;;
       ret text)
      Requests.is_RequestException
      (fun e =>
         print ("Error calling Gemini API: " ++ Requests.text_of e) ;;
         ret (VStr trouble_reply)).

Definition handle_general_message (event : dict) : M unit :=
  if has_key "bot_id" event then ret tt
  else
    let text := get event "text" VNone in
    user_id <- getitem event "user" ;;
    mentioned <- re_search re_mention text ;;
    if mentioned || eq_str (get event "channel_type" VNone) "im" then
      stripped <- re_sub_empty re_mention text ;;
      let cleaned_text := strip stripped in
      response_text <- get_gemini_response cleaned_text ;;
      reply <- str response_text ;;
      say reply
    else ret tt.

(** The listeners of [app], in the order the module registers them. *)
Definition canned : list Bolt.listener :=
  [ Bolt.Listener (Bolt.message re_hello) message_hello;
    Bolt.Listener (Bolt.message re_status) message_status;
    Bolt.Listener (Bolt.message re_ping) ping_pong;
    Bolt.Listener (Bolt.message re_thanks) thank_you_response;
    Bolt.Listener (Bolt.message re_tip) give_tip;
    Bolt.Listener (Bolt.message re_bye) message_bye ].

Definition app : list Bolt.listener :=
  (canned ++
  [ Bolt.Listener (Bolt.event "member_joined_channel") welcome_new_member;
    Bolt.Listener (Bolt.event "message") handle_general_message ])%list.

(** One event delivered to the program. *)
Definition on_event (ev : dict) : M unit := Bolt.dispatch app ev.

(* ===================================================================== *)
(** ** What a run shows *)
(* ===================================================================== *)

(** The replies sent, in order. *)
Fixpoint says (t : list effect) : list string :=
  match t with
  | Say text :: t' => text :: says t'
  | _ :: t' => says t'
  | [] => []
  end.

(** The prompts the gateway was entered with, in order. *)
Fixpoint gateway_calls (t : list effect) : list string :=
  match t with
  | Call f prompt :: t' =>
      if String.eqb f "get_gemini_response" then prompt :: gateway_calls t'
      else gateway_calls t'
  | _ :: t' => gateway_calls t'
  | [] => []
  end.

(** The lines written to the standard output, in order. *)
Fixpoint printed (t : list effect) : list string :=
  match t with
  | Stdout line :: t' => line :: printed t'
  | _ :: t' => printed t'
  | [] => []
  end.

(** The URLs of the HTTP requests made, in order. *)
Fixpoint posts (t : list effect) : list string :=
  match t with
  | HttpPost url _ _ :: t' => url :: posts t'
  | _ :: t' => posts t'
  | [] => []
  end.

(** A mention token, in the words of the pattern: ["<@"], an identifier of
    one or more word characters, [">"]. *)
Definition identifier (W : string) : Prop :=
  W <> "" /\ all_chars is_word W = true.

Definition mention (W : string) : string := "<@" ++ W ++ ">".

Definition has_mention (t : string) : Prop :=
  exists pre W post, identifier W /\ t = pre ++ mention W ++ post.

(** The subject after its longest prefix of word characters. *)
Fixpoint skip_word (s : string) : string :=
  match s with
  | String c s' => if is_word c then skip_word s' else s
  | EmptyString => EmptyString
  end.

Fixpoint take_word (s : string) : string :=
  match s with
  | String c s' => if is_word c then String c (take_word s') else EmptyString
  | EmptyString => EmptyString
  end.

Definition after_gt (s : string) : option string :=
  match s with
  | String d rest => if Ascii.eqb ">" d then Some rest else None
  | EmptyString => None
  end.

(** A mention token at the head of [s]: what follows it. *)
Definition token_rest (s : string) : option string :=
  match s with
  | String a (String b (String c s')) =>
      if Ascii.eqb "<" a && Ascii.eqb "@" b && is_word c
      then after_gt (skip_word s')
      else None
  | _ => None
  end.

(** The last three lines of [handle_general_message]. *)
Definition answer_with (prompt : string) : M unit :=
  (response_text <- get_gemini_response prompt ;;
   reply <- str response_text ;;
   say reply)%py.

(** The condition of its [if]. *)
Definition qualifies (ev : dict) (t : string) : bool :=
  Re.search re_mention t || eq_str (get ev "channel_type" VNone) "im".

(* ===================================================================== *)
(** ** What every computation of the program respects *)
(* ===================================================================== *)

Definition same_key (g g' : Globals) : Prop :=
  GEMINI_API_KEY g = GEMINI_API_KEY g'.

(** [tame Q m]: [m] leaves the globals as it found them, each of its
    effects satisfies [Q], and of the globals only [GEMINI_API_KEY] has a
    say in what it does. *)
Definition tame {A} (Q : effect -> Prop) (m : M A) : Prop :=
  forall w g,
    globals_after (m w g) = g
    /\ Forall Q (trace (m w g))
    /\ forall g', same_key g g' ->
                  trace (m w g') = trace (m w g)
                  /\ value_of (m w g') = value_of (m w g).

(** At most one reply is sent. *)
Definition one_reply {A} (m : M A) : Prop :=
  forall w g, List.length (says (trace (m w g))) <= 1.

Definition not_say (e : effect) : Prop :=
  match e with Say _ => False | _ => True end.

Definition not_call (e : effect) : Prop :=
  match e with Call _ _ => False | _ => True end.

(** The only lines the program prints. *)
Definition known_line (e : effect) : Prop :=
  match e with
  | Stdout line =>
      line = "GEMINI_API_KEY is not set."
      \/ exists x, line = "Error calling Gemini API: " ++ Requests.text_of x
  | _ => True
  end.

Definition is_say (e : effect) : Prop :=
  match e with Say _ => True | _ => False end.

Definition no_effect (e : effect) : Prop := False.

Definition gateway_effect (e : effect) : Prop := not_say e /\ known_line e.

(* ===================================================================== *)
(** ** Events, worlds and globals of the examples *)
(* ===================================================================== *)

(** A message event from user [U1]. *)
Definition message_event (text channel_type : string) : dict :=
  [ ("type", VStr "message"); ("user", VStr "U1");
    ("text", VStr text); ("channel_type", VStr channel_type) ].

(** The same, posted by a bot. *)
Definition bot_message_event (text channel_type : string) : dict :=
  (message_event text channel_type ++ [("bot_id", VStr "B1")])%list.

(** A message event that carries no text. *)
Definition textless_event : dict :=
  [ ("type", VStr "message"); ("user", VStr "U1"); ("channel_type", VStr "im") ].

(** The event Slack sends when a message is edited: the text and the
    sender are those of the inner [message], not of the event. *)
Definition edited_event : dict :=
  [ ("type", VStr "message"); ("subtype", VStr "message_changed");
    ("channel_type", VStr "channel");
    ("message", VDict [("user", VStr "U1"); ("text", VStr "hello again")]) ].

(** A message event that names no sender. *)
Definition senderless_event : dict :=
  [ ("type", VStr "message"); ("text", VStr "hello");
    ("channel_type", VStr "channel") ].

(** A world in which every request meets the same answer. *)
Definition world_answering (r : reply) : World :=
  {| network := fun _ _ => r;
     random_int := 0;
     json_error_is_request_exception := true;
     repr := fun _ => "" |}.

(** A JSON document of the shape the gateway expects. *)
Definition generated (text : string) : value :=
  VDict [("candidates",
          VList [VDict [("content",
                         VDict [("parts", VList [VDict [("text", VStr text)]])])]])].

Definition globals_with_key (key : option string) : Globals :=
  {| SLACK_BOT_TOKEN := Some "xoxb-1";
     SLACK_APP_TOKEN := Some "xapp-1";
     GEMINI_API_KEY := key |}.

(* ===================================================================== *)
(** ** The rules in plain terms *)
(* ===================================================================== *)

(** [a] and [b] are the same text, letter case apart when [ic] is set. *)
Fixpoint text_eq (ic : bool) (a b : string) : bool :=
  match a, b with
  | EmptyString, EmptyString => true
  | String x a', String y b' => char_eq ic y x && text_eq ic a' b'
  | _, _ => false
  end.

(** The character before the position reached after [h]. *)
Fixpoint last_char (prev : option ascii) (h : string) : option ascii :=
  match h with
  | String c h' => last_char (Some c) h'
  | EmptyString => prev
  end.

(** [t] begins with the word [kw], in any letter case: after it the text
    ends, or goes on with a character that is not a word character. *)
Definition begins_with_word (kw t : string) : Prop :=
  exists h rest,
    t = h ++ rest /\ text_eq true h kw = true
    /\ Re.word_opt (Re.head rest) = false.

(** [t] holds the text [kw] somewhere, in any letter case. *)
Definition holds_text (kw t : string) : Prop :=
  exists pre h post, t = pre ++ h ++ post /\ text_eq true h kw = true.

(** [t] holds [kw] somewhere, letter for letter. *)
Definition holds_exactly (kw t : string) : Prop :=
  exists pre post, t = pre ++ kw ++ post.

(** An ordinary message event: no subtype, a text [t] and a sender [u]. *)
Definition plain_message (ev : dict) (t u : string) : Prop :=
  lookup "type" ev = Some (VStr "message")
  /\ lookup "subtype" ev = None
  /\ lookup "text" ev = Some (VStr t)
  /\ lookup "user" ev = Some (VStr u).

(** The conditions of the six rules, each in the words of its pattern. *)
Definition greeting (t : string) : Prop :=
  begins_with_word "hello" t \/ begins_with_word "hi" t.

Definition inquiry (t : string) : Prop := holds_text "how are you" t.

Definition ping (t : string) : Prop := holds_exactly "ping" t.

Definition thanks (t : string) : Prop :=
  holds_text "thanks" t \/ holds_text "thank you" t.

Definition tip_request (t : string) : Prop := holds_exactly "give me a tip" t.

Definition farewell (t : string) : Prop :=
  begins_with_word "bye" t \/ begins_with_word "goodbye" t.

(* ===================================================================== *)
(** ** The request and the answer of the gateway, piece by piece *)
(* ===================================================================== *)

(** The headers and the payload of [get_gemini_response] (lines 98-107). *)
Definition gemini_headers : dict := [("Content-Type", VStr "application/json")].

Definition gemini_payload (prompt : string) : value :=
  VDict [("contents",
          VList [VDict [("parts", VList [VDict [("text", VStr prompt)]])]])].

(** Its URL (line 109). *)
Definition gemini_url (g : Globals) : string :=
  api_base ++ key_text (GEMINI_API_KEY g).

(** What it reads in the decoded response (line 115). *)
Definition first_text (result : value) : M value :=
  (candidates <- dot_get result "candidates" (VList [VDict []]) ;;
   candidate <- index0 candidates ;;
   content <- dot_get candidate "content" (VDict []) ;;
   parts <- dot_get content "parts" (VList [VDict []]) ;;
   part <- index0 parts ;;
   text <- dot_get part "text" (VStr "No response found.") ;;
   ret text)%py.

(** The body of its [try] (lines 112-116) and of its [except] (lines
    118-119). *)
Definition gemini_request (prompt api_url : string) : M value :=
  (response <- Requests.post api_url gemini_headers (gemini_payload prompt) ;;
   Requests.raise_for_status response ;;
   result <- Requests.json response ;;
   first_text result)%py.

Definition gemini_handler (e : exn) : M value :=
  (print ("Error calling Gemini API: " ++ Requests.text_of e) ;;
   ret (VStr trouble_reply))%py.

(** The HTTP requests of a run, in order. *)
Definition requests_of (t : list effect) : list effect :=
  filter (fun e => match e with HttpPost _ _ _ => true | _ => false end) t.

(** A response document (an object) in which the path
    [candidates[0].content.parts[0].text] ends at a missing key. *)
Definition lacks_text (d : dict) : Prop :=
  lookup "candidates" d = None
  \/ exists c more_c,
       lookup "candidates" d = Some (VList (VDict c :: more_c))
       /\ (lookup "content" c = None
           \/ exists ct,
                lookup "content" c = Some (VDict ct)
                /\ (lookup "parts" ct = None
                    \/ exists p more_p,
                         lookup "parts" ct = Some (VList (VDict p :: more_p))
                         /\ lookup "text" p = None)).

(** The text of the HTTPError of a response with an error status. *)
Definition http_error_text (code : Z) (why url : string) : string :=
  Requests.decimal code
  ++ (if (code <? 500)%Z then " Client Error: " else " Server Error: ")
  ++ why ++ " for url: " ++ url.

Definition is_error_status (code : Z) : bool :=
  (400 <=? code)%Z && (code <? 600)%Z.

Definition not_post (e : effect) : Prop :=
  match e with HttpPost _ _ _ => False | _ => True end.

Definition quiet_effect (e : effect) : Prop :=
  not_post e /\ not_call e /\ not_say e.

(* ===================================================================== *)
(** ** Strings *)
(* ===================================================================== *)

Unset Implicit Arguments.

#[local] Arguments Ascii.eqb : simpl never.
#[local] Arguments String.eqb : simpl never.
#[local] Arguments is_word : simpl never.
#[local] Arguments is_space : simpl never.
#[local] Arguments char_eq : simpl never.

Lemma append_assoc (a b c : string) : (a ++ b) ++ c = a ++ (b ++ c).
Proof. induction a as [|x a IH]; simpl; [reflexivity | now rewrite IH]. Qed.

Lemma length_append (a b : string) :
  String.length (a ++ b) = String.length a + String.length b.
Proof. induction a as [|x a IH]; simpl; [reflexivity | now rewrite IH]. Qed.

Lemma rstrip_is_empty (s : string) :
  is_empty (rstrip s) = all_chars is_space s.
Proof.
  induction s as [|c s IH]; simpl; [reflexivity|].
  rewrite <- IH.
  destruct (is_space c), (is_empty (rstrip s)); reflexivity.
Qed.

Lemma lstrip_all_space (s : string) :
  all_chars is_space (lstrip s) = all_chars is_space s.
Proof.
  induction s as [|c s IH]; simpl; [reflexivity|].
  destruct (is_space c) eqn:E; simpl; [assumption | now rewrite E].
Qed.

Lemma is_empty_true (s : string) : is_empty s = true <-> s = "".
Proof. destruct s; simpl; split; congruence. Qed.

(** [strip] leaves nothing exactly when the string is white space only. *)
Lemma strip_empty_iff (s : string) :
  strip s = "" <-> all_chars is_space s = true.
Proof.
  unfold strip.
  rewrite <- is_empty_true, rstrip_is_empty, lstrip_all_space.
  reflexivity.
Qed.

Lemma word_not_gt (c : ascii) : is_word c = true -> Ascii.eqb ">" c = false.
Proof.
  intros H. destruct (Ascii.eqb_spec ">" c) as [<-|]; [|reflexivity].
  vm_compute in H. discriminate.
Qed.

Lemma take_skip_word (s : string) : s = take_word s ++ skip_word s.
Proof.
  induction s as [|c s IH]; simpl; [reflexivity|].
  destruct (is_word c); simpl; [now rewrite <- IH | reflexivity].
Qed.

Lemma take_word_all (s : string) : all_chars is_word (take_word s) = true.
Proof.
  induction s as [|c s IH]; simpl; [reflexivity|].
  destruct (is_word c) eqn:E; simpl; [now rewrite E | reflexivity].
Qed.

Lemma skip_word_append_all (W s : string) :
  all_chars is_word W = true -> skip_word (W ++ s) = skip_word s.
Proof.
  induction W as [|c W IH]; simpl; [reflexivity|].
  intros H. apply andb_prop in H as [Hc HW]. now rewrite Hc, IH.
Qed.

(** A non-word character ahead stops [skip_word] where it stopped before. *)
Lemma skip_word_append_stop (s : string) (d : ascii) (x : string) :
  is_word d = false ->
  skip_word (s ++ String d x) = skip_word s ++ String d x.
Proof.
  intros Hd. induction s as [|c s IH]; simpl.
  - now rewrite Hd.
  - destruct (is_word c); [assumption | reflexivity].
Qed.

(* ===================================================================== *)
(** ** The mention pattern *)
(* ===================================================================== *)

Lemma star_word_gt (s : string) (prev : option ascii) :
  Re.star false Re.Word prev s
    (fun p t => Re.run false (Re.lit ">") p t (fun _ r => Some r))
  = after_gt (skip_word s).
Proof.
  revert prev. induction s as [|c s IH]; intros prev; simpl; [reflexivity|].
  destruct (is_word c) eqn:E.
  - rewrite IH. unfold char_eq. rewrite (word_not_gt _ E).
    now destruct (after_gt (skip_word s)).
  - reflexivity.
Qed.

(** The engine on [<@\w+>] at a position finds what [token_rest] finds. *)
Lemma match_here_mention (prev : option ascii) (s : string) :
  Re.match_here re_mention prev s = token_rest s.
Proof.
  unfold Re.match_here, re_mention. simpl.
  destruct s as [|a [|b [|c s]]]; simpl; unfold char_eq;
    repeat match goal with
           | |- context [Ascii.eqb ?x ?y] => destruct (Ascii.eqb x y); simpl
           end; try reflexivity.
  destruct (is_word c); [apply star_word_gt | reflexivity].
Qed.

Lemma mention_cons (W post : string) :
  mention W ++ post = String "<" (String "@" (W ++ String ">" post)).
Proof. unfold mention. simpl. now rewrite append_assoc. Qed.

Lemma token_rest_mention (W post : string) :
  identifier W -> token_rest (mention W ++ post) = Some post.
Proof.
  intros [Hne Hall]. rewrite mention_cons.
  destruct W as [|c W]; [congruence|].
  simpl in Hall. apply andb_prop in Hall as [Hc HW].
  simpl. rewrite Hc, (skip_word_append_all _ _ HW). reflexivity.
Qed.

Lemma token_rest_Some (s rest : string) :
  token_rest s = Some rest ->
  exists W, identifier W /\ s = mention W ++ rest.
Proof.
  destruct s as [|a [|b [|c s]]]; simpl; try discriminate.
  destruct (Ascii.eqb_spec "<" a) as [<-|]; simpl; [|discriminate].
  destruct (Ascii.eqb_spec "@" b) as [<-|]; simpl; [|discriminate].
  destruct (is_word c) eqn:Hc; [|discriminate].
  destruct (skip_word s) as [|d r] eqn:Hs; simpl; [discriminate|].
  destruct (Ascii.eqb_spec ">" d) as [<-|]; [|discriminate].
  intros [= <-].
  exists (String c (take_word s)). split.
  - split; [discriminate|]. simpl. now rewrite Hc, take_word_all.
  - unfold mention. simpl. rewrite append_assoc. simpl.
    rewrite <- Hs, <- take_skip_word. reflexivity.
Qed.

Lemma token_rest_shorter (s rest : string) :
  token_rest s = Some rest ->
  exists n, String.length s - String.length rest = S n
            /\ n < String.length s.
Proof.
  intros H. apply token_rest_Some in H as (W & _ & ->).
  rewrite mention_cons.
  assert (E : String.length (String "<" (String "@" (W ++ String ">" rest)))
              = S (S (String.length W + S (String.length rest))))
    by (simpl; now rewrite length_append).
  rewrite E. exists (S (S (String.length W))). split; lia.
Qed.

(** A match that starts before a ["<"] ends before it: the text after
    that ["<"] changes nothing to it. *)
Lemma token_rest_before_lt (c : ascii) (s x : string) :
  token_rest (String c s ++ String "<" x)
  = option_map (fun r => r ++ String "<" x) (token_rest (String c s)).
Proof.
  assert (Hlt : is_word "<" = false) by reflexivity.
  destruct s as [|b [|d s]]; simpl.
  - change (Ascii.eqb "@" "<") with false.
    destruct x; [reflexivity|]. now rewrite andb_false_r.
  - destruct (Ascii.eqb "<" c), (Ascii.eqb "@" b); simpl; try reflexivity;
      try now rewrite Hlt.
  - destruct (Ascii.eqb "<" c && Ascii.eqb "@" b && is_word d); [|reflexivity].
    rewrite skip_word_append_stop by exact Hlt.
    destruct (skip_word s) as [|e r]; simpl; [reflexivity|].
    now destruct (Ascii.eqb ">" e).
Qed.

Lemma search_from_unfold (p : Re.pattern) (prev : option ascii) (s : string) :
  Re.search_from p prev s
  = match Re.match_here p prev s with
    | Some _ => true
    | None =>
        match s with
        | String c s' => Re.search_from p (Some c) s'
        | EmptyString => false
        end
    end.
Proof. destruct s; reflexivity. Qed.

(** [re.search(r"<@\w+>", t)] finds something exactly when [t] holds a
    mention token. *)
Lemma search_from_mention_iff (prev : option ascii) (t : string) :
  Re.search_from re_mention prev t = true <-> has_mention t.
Proof.
  split.
  - revert prev. induction t as [|c t IH]; intros prev;
      rewrite search_from_unfold, match_here_mention.
    + simpl. discriminate.
    + destruct (token_rest (String c t)) as [rest|] eqn:E.
      * intros _. apply token_rest_Some in E as (W & HW & ->).
        exists "", W, rest. auto.
      * intros H. apply IH in H as (pre & W & post & HW & ->).
        exists (String c pre), W, post. auto.
  - intros (pre & W & post & HW & ->). revert prev.
    induction pre as [|c pre IH]; intros prev;
      rewrite search_from_unfold, match_here_mention.
    + change ("" ++ mention W ++ post) with (mention W ++ post).
      now rewrite (token_rest_mention _ _ HW).
    + destruct (token_rest _); [reflexivity|]. simpl. apply IH.
Qed.

Lemma search_mention_iff (t : string) :
  Re.search re_mention t = true <-> has_mention t.
Proof. apply search_from_mention_iff. Qed.

Lemma sub_from_here (p : Re.pattern) (prev : option ascii) (c : ascii) (s : string) :
  Re.sub_from p 0 prev (String c s)
  = match Re.match_here p prev (String c s) with
    | Some rest =>
        match String.length (String c s) - String.length rest with
        | S n => Re.sub_from p n (Some c) s
        | O => String c (Re.sub_from p 0 (Some c) s)
        end
    | None => String c (Re.sub_from p 0 (Some c) s)
    end.
Proof. reflexivity. Qed.

Lemma sub_from_skip (p : Re.pattern) (n : nat) (prev : option ascii)
      (c : ascii) (s : string) :
  Re.sub_from p (S n) prev (String c s) = Re.sub_from p n (Some c) s.
Proof. reflexivity. Qed.

#[local] Opaque Re.sub_from.
#[local] Arguments String.length : simpl never.

(** The mention pattern looks at nothing before the position it starts at. *)
Lemma sub_mention_prev (s : string) (k : nat) (p1 p2 : option ascii) :
  Re.sub_from re_mention k p1 s = Re.sub_from re_mention k p2 s.
Proof.
  destruct s as [|c s]; [now destruct k|].
  destruct k.
  - rewrite !sub_from_here, !match_here_mention. reflexivity.
  - rewrite !sub_from_skip. reflexivity.
Qed.

(** Passing over [x] with [skip] set to its length. *)
Lemma sub_mention_pass (x s : string) (prev : option ascii) :
  Re.sub_from re_mention (String.length x) prev (x ++ s)
  = Re.sub_from re_mention 0 None s.
Proof.
  revert prev. induction x as [|c x IH]; intros prev.
  - apply sub_mention_prev.
  - change (String.length (String c x)) with (S (String.length x)).
    simpl. rewrite sub_from_skip. apply IH.
Qed.

(** What is removed before a ["<"] does not depend on what follows it. *)
Lemma sub_mention_before (x pre : string) (skip : nat) (prev : option ascii) :
  skip <= String.length pre ->
  Re.sub_from re_mention skip prev (pre ++ String "<" x)
  = Re.sub_from re_mention skip prev pre
    ++ Re.sub_from re_mention 0 None (String "<" x).
Proof.
  remember (Re.sub_from re_mention 0 None (String "<" x)) as tail eqn:Etail.
  revert skip prev. induction pre as [|c pre IH]; intros skip prev Hk.
  - change (String.length "") with 0 in Hk.
    assert (skip = 0) as -> by lia.
    change ("" ++ String "<" x) with (String "<" x).
    subst tail. now destruct x; apply sub_mention_prev.
  - change (String.length (String c pre)) with (S (String.length pre)) in Hk.
    change (String c pre ++ String "<" x)
      with (String c (pre ++ String "<" x)).
    destruct skip as [|n].
    + rewrite !sub_from_here, !match_here_mention.
      change (String c (pre ++ String "<" x))
        with (String c pre ++ String "<" x).
      rewrite token_rest_before_lt.
      destruct (token_rest (String c pre)) as [rest|] eqn:E; cbn [option_map].
      * destruct (token_rest_shorter _ _ E) as (n & Hn & Hlt).
        rewrite !length_append.
        replace (String.length (String c pre) + String.length (String "<" x)
                 - (String.length rest + String.length (String "<" x)))
          with (String.length (String c pre) - String.length rest) by lia.
        rewrite Hn.
        change (String.length (String c pre)) with (S (String.length pre)) in Hlt.
        apply IH. lia.
      * rewrite IH by lia. reflexivity.
    + rewrite !sub_from_skip. apply IH. lia.
Qed.

(** Every mention token is removed, whoever it names. *)
Lemma sub_mention_app (pre W post : string) :
  identifier W ->
  Re.sub_empty re_mention (pre ++ mention W ++ post)
  = Re.sub_empty re_mention pre ++ Re.sub_empty re_mention post.
Proof.
  intros HW. unfold Re.sub_empty.
  assert (Hhere : Re.sub_from re_mention 0 None (mention W ++ post)
                  = Re.sub_from re_mention 0 None post).
  { pose proof (token_rest_mention W post HW) as Ht.
    destruct (token_rest_shorter _ _ Ht) as (n & Hn & _).
    revert Ht Hn. rewrite mention_cons. intros Ht Hn.
    rewrite sub_from_here, match_here_mention, Ht, Hn.
    assert (n = String.length (String "@" (W ++ ">"))) as ->.
    { revert Hn.
      change (String.length (String "<" (String "@" (W ++ String ">" post))))
        with (S (S (String.length (W ++ String ">" post)))).
      change (String.length (String "@" (W ++ ">")))
        with (S (String.length (W ++ ">"))).
      rewrite !length_append.
      change (String.length (String ">" post)) with (S (String.length post)).
      change (String.length ">") with 1. lia. }
    replace (String "@" (W ++ String ">" post))
      with (String "@" (W ++ ">") ++ post)
      by (simpl; now rewrite append_assoc).
    apply sub_mention_pass. }
  rewrite <- Hhere, mention_cons.
  apply sub_mention_before. lia.
Qed.

(* ===================================================================== *)
(** ** Runs *)
(* ===================================================================== *)

Lemma bind_run {A B} (m : M A) (f : A -> M B) (w : World) (g : Globals) :
  bind m f w g
  = match value_of (m w g) with
    | Return a =>
        Outcome (globals_after (f a w (globals_after (m w g))))
                (trace (m w g) ++ trace (f a w (globals_after (m w g))))%list
                (value_of (f a w (globals_after (m w g))))
    | Raise e => Outcome (globals_after (m w g)) (trace (m w g)) (Raise e)
    end.
Proof. reflexivity. Qed.

Lemma try_run {A} (body : M A) (caught : World -> exn -> bool)
      (handler : exn -> M A) (w : World) (g : Globals) :
  try_except body caught handler w g
  = match value_of (body w g) with
    | Return a => body w g
    | Raise e =>
        if caught w e then
          Outcome (globals_after (handler e w (globals_after (body w g))))
                  (trace (body w g)
                   ++ trace (handler e w (globals_after (body w g))))%list
                  (value_of (handler e w (globals_after (body w g))))
        else body w g
    end.
Proof. reflexivity. Qed.

Lemma outcome_eta {A} (o : outcome A) :
  Outcome (globals_after o) (trace o) (value_of o) = o.
Proof. now destruct o. Qed.

Section Tame.
Context {A B : Type} (Q : effect -> Prop).

Lemma tame_ret (a : A) : tame Q (ret a).
Proof. intros w g. cbn. auto. Qed.

Lemma tame_raise (e : exn) : tame Q (@raise A e).
Proof. intros w g. cbn. auto. Qed.

Lemma tame_world : tame Q world.
Proof. intros w g. cbn. auto. Qed.

Lemma tame_key : tame Q (global GEMINI_API_KEY).
Proof.
  intros w g. cbn. split; [reflexivity|]. split; [constructor|].
  intros g' H. now rewrite H.
Qed.

Lemma tame_emit (e : effect) : Q e -> tame Q (emit e).
Proof. intros H w g. cbn. auto. Qed.

Lemma tame_bind (m : M A) (f : A -> M B) :
  tame Q m -> (forall a, tame Q (f a)) -> tame Q (bind m f).
Proof.
  intros Hm Hf w g.
  destruct (Hm w g) as (Hg & Ht & Hk).
  assert (Hother : forall g', same_key g g' -> bind m f w g'
            = match value_of (m w g) with
              | Return a =>
                  Outcome (globals_after (f a w g'))
                          (trace (m w g) ++ trace (f a w g'))%list
                          (value_of (f a w g'))
              | Raise e => Outcome g' (trace (m w g)) (Raise e)
              end).
  { intros g' Hs. rewrite bind_run.
    destruct (Hk g' Hs) as (E1 & E2). destruct (Hm w g') as (E0 & _).
    now rewrite E2, E1, E0. }
  rewrite bind_run, Hg.
  destruct (value_of (m w g)) as [a|e]; cbn.
  - destruct (Hf a w g) as (Hg' & Ht' & Hk').
    split; [assumption|]. split; [apply Forall_app; auto|].
    intros g' Hs. rewrite (Hother g' Hs). cbn.
    destruct (Hk' g' Hs) as (E3 & E4). now rewrite E3, E4.
  - split; [reflexivity|]. split; [assumption|].
    intros g' Hs. rewrite (Hother g' Hs). cbn. auto.
Qed.

Lemma tame_try (body : M B) (caught : World -> exn -> bool)
      (handler : exn -> M B) :
  tame Q body -> (forall e, tame Q (handler e)) ->
  tame Q (try_except body caught handler).
Proof.
  intros Hm Hf w g.
  destruct (Hm w g) as (Hg & Ht & Hk).
  assert (Hother : forall g', same_key g g' ->
            try_except body caught handler w g'
            = match value_of (body w g) with
              | Return a => Outcome g' (trace (body w g)) (Return a)
              | Raise e =>
                  if caught w e then
                    Outcome (globals_after (handler e w g'))
                            (trace (body w g) ++ trace (handler e w g'))%list
                            (value_of (handler e w g'))
                  else Outcome g' (trace (body w g)) (Raise e)
              end).
  { intros g' Hs. rewrite try_run.
    destruct (Hk g' Hs) as (E1 & E2). destruct (Hm w g') as (E0 & _).
    rewrite <- (outcome_eta (body w g')), E2, E1, E0. cbn.
    destruct (value_of (body w g)) as [a|e]; [reflexivity|].
    now destruct (caught w e). }
  rewrite try_run.
  destruct (value_of (body w g)) as [a|e] eqn:E.
  - split; [assumption|]. split; [assumption|].
    intros g' Hs. rewrite (Hother g' Hs). cbn. auto.
  - destruct (caught w e); cbn.
    + rewrite Hg. destruct (Hf e w g) as (Hg' & Ht' & Hk').
      split; [assumption|]. split; [apply Forall_app; auto|].
      intros g' Hs. rewrite (Hother g' Hs). cbn.
      destruct (Hk' g' Hs) as (E3 & E4). now rewrite E3, E4.
    + split; [assumption|]. split; [assumption|].
      intros g' Hs. rewrite (Hother g' Hs). cbn. auto.
Qed.

End Tame.

Lemma tame_weaken {A} (Q Q' : effect -> Prop) (m : M A) :
  (forall e, Q e -> Q' e) -> tame Q m -> tame Q' m.
Proof.
  intros HQ Hm w g. destruct (Hm w g) as (Hg & Ht & Hk).
  split; [assumption|]. split; [eapply Forall_impl; eauto | assumption].
Qed.

(** Unfolds the operations of the runtime and walks through a computation,
    one bind or one case at a time. *)
Ltac tame_step :=
  first
    [ apply tame_ret | apply tame_raise | apply tame_world | apply tame_key
    | apply tame_emit; cbn; solve [ exact I | auto | eauto ]
    | apply tame_bind; [| intros ?]
    | apply tame_try; [| intros ?]
    | match goal with
      | |- tame _ (match ?x with _ => _ end) => destruct x
      | |- tame _ (if ?x then _ else _) => destruct x
      end ].

Ltac tame :=
  unfold say, print, str, getitem, dot_get, index0, re_search, re_sub_empty,
    random_choice, Requests.post, Requests.raise_for_status, Requests.json;
  repeat tame_step.

Lemma says_app (t t' : list effect) : says (t ++ t') = (says t ++ says t')%list.
Proof.
  induction t as [|e t IH]; [reflexivity|].
  destruct e; simpl; now rewrite IH.
Qed.

Lemma gateway_calls_app (t t' : list effect) :
  gateway_calls (t ++ t') = (gateway_calls t ++ gateway_calls t')%list.
Proof.
  induction t as [|e t IH]; [reflexivity|].
  destruct e; simpl; rewrite IH; try reflexivity.
  now destruct (String.eqb function "get_gemini_response").
Qed.

Lemma no_effect_nil (t : list effect) : Forall no_effect t -> t = [].
Proof. destruct 1 as [|e t H _]; [reflexivity | destruct H]. Qed.

Lemma not_say_says (t : list effect) : Forall not_say t -> says t = [].
Proof.
  induction 1 as [|e t He _ IH]; [reflexivity|].
  destruct e; simpl; auto. destruct He.
Qed.

Lemma not_call_gateway_calls (t : list effect) :
  Forall not_call t -> gateway_calls t = [].
Proof.
  induction 1 as [|e t He _ IH]; [reflexivity|].
  destruct e; simpl; auto. destruct He.
Qed.

Lemma is_say_no_call (t : list effect) :
  Forall is_say t -> gateway_calls t = [] /\ printed t = [] /\ posts t = [].
Proof.
  induction 1 as [|e t He _ IH]; [auto|].
  destruct e; simpl; auto; destruct He.
Qed.

Lemma known_line_printed (t : list effect) (line : string) :
  Forall known_line t -> In line (printed t) ->
  line = "GEMINI_API_KEY is not set."
  \/ exists x, line = "Error calling Gemini API: " ++ Requests.text_of x.
Proof.
  induction 1 as [|e t He _ IH]; simpl; [tauto|].
  destruct e; simpl; auto.
  intros [<-|H]; auto.
Qed.

(** *** The gateway and the handlers *)

Lemma tame_gateway (prompt : string) :
  tame gateway_effect (get_gemini_response prompt).
Proof.
  unfold get_gemini_response, gateway_effect. tame.
Qed.

Lemma tame_message_hello (m : dict) : tame is_say (message_hello m).
Proof. unfold message_hello. tame. Qed.

Lemma tame_message_status (m : dict) : tame is_say (message_status m).
Proof. unfold message_status. tame. Qed.

Lemma tame_ping_pong (m : dict) : tame is_say (ping_pong m).
Proof. unfold ping_pong. tame. Qed.

Lemma tame_thank_you_response (m : dict) : tame is_say (thank_you_response m).
Proof. unfold thank_you_response. tame. Qed.

Lemma tame_give_tip (m : dict) : tame is_say (give_tip m).
Proof. unfold give_tip. tame. Qed.

Lemma tame_message_bye (m : dict) : tame is_say (message_bye m).
Proof. unfold message_bye. tame. Qed.

Lemma tame_welcome_new_member (m : dict) : tame is_say (welcome_new_member m).
Proof. unfold welcome_new_member. tame. Qed.

Lemma tame_canned (l : Bolt.listener) (ev : dict) :
  In l canned -> tame is_say (Bolt.function l ev).
Proof.
  unfold canned. simpl.
  intros [<-|[<-|[<-|[<-|[<-|[<-|[]]]]]]]; simpl;
    auto using tame_message_hello, tame_message_status, tame_ping_pong,
      tame_thank_you_response, tame_give_tip, tame_message_bye.
Qed.

Lemma tame_gateway_known (prompt : string) :
  tame known_line (get_gemini_response prompt).
Proof.
  apply tame_weaken with (Q := gateway_effect); [|apply tame_gateway].
  now intros e [_ H].
Qed.

Lemma tame_gateway_not_say (prompt : string) :
  tame not_say (get_gemini_response prompt).
Proof.
  apply tame_weaken with (Q := gateway_effect); [|apply tame_gateway].
  now intros e [H _].
Qed.

#[local] Opaque get_gemini_response.

Lemma tame_handle_general_message (ev : dict) :
  tame known_line (handle_general_message ev).
Proof.
  unfold handle_general_message. tame. apply tame_gateway_known.
Qed.

#[local] Transparent get_gemini_response.

Lemma is_say_known (e : effect) : is_say e -> known_line e.
Proof. now destruct e. Qed.

(** *** The listener loop *)

Lemma tame_accepts (Q : effect -> Prop) (l : Bolt.listener) (ev : dict) :
  tame Q (Bolt.accepts l ev).
Proof.
  unfold Bolt.accepts, Bolt.matches, Bolt.middleware_passes. tame.
Qed.

Lemma accepts_run (l : Bolt.listener) (ev : dict) (w : World) (g : Globals) :
  Bolt.accepts l ev w g = Outcome g [] (value_of (Bolt.accepts l ev w g)).
Proof.
  destruct (tame_accepts no_effect l ev w g) as (Hg & Ht & _).
  apply no_effect_nil in Ht.
  rewrite <- (outcome_eta (Bolt.accepts l ev w g)) at 1.
  now rewrite Hg, Ht.
Qed.

Lemma dispatch_cons (l : Bolt.listener) (rest : list Bolt.listener)
      (ev : dict) (w : World) (g : Globals) :
  Bolt.dispatch (l :: rest) ev w g
  = match value_of (Bolt.accepts l ev w g) with
    | Return true => Bolt.function l ev w g
    | Return false => Bolt.dispatch rest ev w g
    | Raise e => Outcome g [] (Raise e)
    end.
Proof.
  change (Bolt.dispatch (l :: rest) ev)
    with (bind (Bolt.accepts l ev)
               (fun taken => if taken then Bolt.function l ev
                             else Bolt.dispatch rest ev)).
  rewrite bind_run, accepts_run. cbn.
  destruct (value_of (Bolt.accepts l ev w g)) as [[|]|e];
    [apply outcome_eta | apply outcome_eta | reflexivity].
Qed.

(** First match wins: the listeners before the first one that accepts the
    event have declined it, and nothing after it is looked at. *)
Lemma dispatch_first_match (before after : list Bolt.listener)
      (l : Bolt.listener) (ev : dict) (w : World) (g : Globals) :
  Forall (fun l' => value_of (Bolt.accepts l' ev w g) = Return false) before ->
  value_of (Bolt.accepts l ev w g) = Return true ->
  Bolt.dispatch (before ++ l :: after) ev w g = Bolt.function l ev w g.
Proof.
  intros Hb Hl. induction Hb as [|l' before Hl' _ IH].
  - change ([] ++ l :: after)%list with (l :: after).
    now rewrite dispatch_cons, Hl.
  - change ((l' :: before) ++ l :: after)%list
      with (l' :: before ++ l :: after)%list.
    now rewrite dispatch_cons, Hl'.
Qed.

(** Whatever the loop does is what one of the listeners does, or nothing. *)
Lemma dispatch_inv (P : outcome unit -> Prop) (ls : list Bolt.listener)
      (ev : dict) (w : World) (g : Globals) :
  P (Outcome g [] (Return tt)) ->
  (forall e, P (Outcome g [] (Raise e))) ->
  (forall l, In l ls -> P (Bolt.function l ev w g)) ->
  P (Bolt.dispatch ls ev w g).
Proof.
  intros Hnone Hraise Hrun. induction ls as [|l ls IH]; [exact Hnone|].
  rewrite dispatch_cons.
  destruct (value_of (Bolt.accepts l ev w g)) as [[|]|e].
  - apply Hrun. now left.
  - apply IH. intros l' Hl'. apply Hrun. now right.
  - apply Hraise.
Qed.

Lemma tame_dispatch (Q : effect -> Prop) (ls : list Bolt.listener) (ev : dict) :
  (forall l, In l ls -> tame Q (Bolt.function l ev)) ->
  tame Q (Bolt.dispatch ls ev).
Proof.
  induction ls as [|l ls IH]; intros H; [apply tame_ret|].
  change (Bolt.dispatch (l :: ls) ev)
    with (bind (Bolt.accepts l ev)
               (fun taken => if taken then Bolt.function l ev
                             else Bolt.dispatch ls ev)).
  apply tame_bind; [apply tame_accepts|].
  intros [|]; [apply H; now left | apply IH; intros l' Hl'; apply H; now right].
Qed.

Lemma app_listeners (l : Bolt.listener) :
  In l app ->
  In l canned
  \/ Bolt.function l = welcome_new_member
  \/ Bolt.function l = handle_general_message.
Proof.
  unfold app. rewrite in_app_iff. simpl.
  intros [H|[<-|[<-|[]]]]; auto.
Qed.

Lemma tame_on_event (ev : dict) : tame known_line (on_event ev).
Proof.
  apply tame_dispatch. intros l Hl.
  destruct (app_listeners _ Hl) as [H|[H|H]].
  - apply tame_weaken with (Q := is_say);
      [apply is_say_known | now apply tame_canned].
  - rewrite H. apply tame_weaken with (Q := is_say);
      [apply is_say_known | apply tame_welcome_new_member].
  - rewrite H. apply tame_handle_general_message.
Qed.

(** *** Replies *)

Lemma one_reply_ret {A} (a : A) : one_reply (ret a).
Proof. intros w g. cbn. lia. Qed.

Lemma one_reply_raise {A} (e : exn) : one_reply (@raise A e).
Proof. intros w g. cbn. lia. Qed.

Lemma one_reply_say (text : string) : one_reply (say text).
Proof. intros w g. cbn. lia. Qed.

Lemma one_reply_bind {A B} (m : M A) (f : A -> M B) :
  tame not_say m -> (forall a, one_reply (f a)) -> one_reply (bind m f).
Proof.
  intros Hm Hf w g. rewrite bind_run.
  destruct (Hm w g) as (Hg & Ht & _). apply not_say_says in Ht.
  destruct (value_of (m w g)) as [a|e]; cbn.
  - rewrite says_app, Ht, Hg. apply Hf.
  - rewrite Ht. cbn. lia.
Qed.

Ltac one_reply_step :=
  first
    [ apply one_reply_ret | apply one_reply_raise | apply one_reply_say
    | apply one_reply_bind; [solve [tame] | intros ?]
    | match goal with
      | |- one_reply (match ?x with _ => _ end) => destruct x
      | |- one_reply (if ?x then _ else _) => destruct x
      end ].

Lemma one_reply_canned (l : Bolt.listener) (ev : dict) :
  In l canned -> one_reply (Bolt.function l ev).
Proof.
  unfold canned. simpl.
  intros [<-|[<-|[<-|[<-|[<-|[<-|[]]]]]]]; simpl;
    unfold message_hello, message_status, ping_pong, thank_you_response,
      give_tip, message_bye;
    repeat one_reply_step.
Qed.

Lemma one_reply_welcome_new_member (ev : dict) :
  one_reply (welcome_new_member ev).
Proof. unfold welcome_new_member. repeat one_reply_step. Qed.

#[local] Opaque get_gemini_response.

Lemma one_reply_handle_general_message (ev : dict) :
  one_reply (handle_general_message ev).
Proof.
  unfold handle_general_message. repeat one_reply_step.
  apply one_reply_bind; [apply tame_gateway_not_say | intros r].
  repeat one_reply_step.
Qed.

#[local] Transparent get_gemini_response.

(** *** The shape of a gateway run *)

Lemma gateway_trace (prompt : string) (w : World) (g : Globals) :
  exists rest,
    trace (get_gemini_response prompt w g)
    = Call "get_gemini_response" prompt :: rest
    /\ Forall not_call rest /\ Forall not_say rest.
Proof.
  unfold get_gemini_response.
  match goal with
  | |- context [bind (emit ?c) ?f] =>
      assert (H : tame (fun e => not_call e /\ not_say e) (f tt))
        by (cbv beta; tame)
  end.
  rewrite bind_run. cbn [emit value_of trace globals_after List.app].
  destruct (H w g) as (_ & Ht & _). cbv beta in Ht.
  eexists. split; [reflexivity|].
  split; eapply Forall_impl; try exact Ht; now intros e [? ?].
Qed.

Lemma gateway_calls_gateway (prompt : string) (w : World) (g : Globals) :
  gateway_calls (trace (get_gemini_response prompt w g)) = [prompt].
Proof.
  destruct (gateway_trace prompt w g) as (rest & -> & Hc & _).
  simpl. now rewrite (not_call_gateway_calls _ Hc).
Qed.

Lemma says_gateway (prompt : string) (w : World) (g : Globals) :
  says (trace (get_gemini_response prompt w g)) = [].
Proof.
  destruct (tame_gateway_not_say prompt w g) as (_ & Ht & _).
  now apply not_say_says.
Qed.

Lemma globals_gateway (prompt : string) (w : World) (g : Globals) :
  globals_after (get_gemini_response prompt w g) = g.
Proof. now destruct (tame_gateway_not_say prompt w g) as (Hg & _). Qed.

(** *** The fallback handler on a well-formed event *)

Lemma bind_ret {A B} (a : A) (f : A -> M B) (w : World) (g : Globals) :
  bind (ret a) f w g = f a w g.
Proof. rewrite bind_run. cbn. apply outcome_eta. Qed.

Lemma fallback_run (ev : dict) (t : string) (u : value) (w : World) (g : Globals) :
  has_key "bot_id" ev = false ->
  lookup "text" ev = Some (VStr t) ->
  lookup "user" ev = Some u ->
  handle_general_message ev w g
  = if qualifies ev t
    then answer_with (strip (Re.sub_empty re_mention t)) w g
    else Outcome g [] (Return tt).
Proof.
  intros Hbot Htext Huser.
  unfold handle_general_message, getitem, get, qualifies.
  rewrite Hbot, Htext, Huser.
  rewrite bind_ret. unfold re_search. rewrite bind_ret.
  destruct (Re.search re_mention t || _); [|reflexivity].
  unfold re_sub_empty. now rewrite bind_ret.
Qed.

Lemma answer_with_run (prompt : string) (w : World) (g : Globals) :
  gateway_calls (trace (answer_with prompt w g)) = [prompt]
  /\ says (trace (answer_with prompt w g))
     = match value_of (get_gemini_response prompt w g) with
       | Return (VStr answer) => [answer]
       | Return other => [repr w other]
       | Raise _ => []
       end.
Proof.
  unfold answer_with. rewrite bind_run, globals_gateway.
  pose proof (gateway_calls_gateway prompt w g) as Hc.
  pose proof (says_gateway prompt w g) as Hs.
  destruct (value_of (get_gemini_response prompt w g)) as [r|e];
    cbn [trace]; [|now rewrite Hc, Hs].
  rewrite gateway_calls_app, says_app, Hc, Hs.
  now destruct r.
Qed.

(* ===================================================================== *)
(** ** Keywords without metacharacters *)
(* ===================================================================== *)

Lemma lit_run_here (n rest : string) (prev : option ascii) (k : Re.cont) :
  (forall p1 p2 t, k p1 t = k p2 t) ->
  Re.run false (Re.lit n) prev (n ++ rest) k = k prev rest.
Proof.
  intros Hk. revert prev. induction n as [|c n IH]; intros prev; [reflexivity|].
  simpl. unfold char_eq. rewrite Ascii.eqb_refl, IH. apply Hk.
Qed.

Lemma lit_run_inv (n s r : string) (prev : option ascii) (k : Re.cont) :
  Re.run false (Re.lit n) prev s k = Some r -> exists rest, s = n ++ rest.
Proof.
  revert prev s. induction n as [|c n IH]; intros prev s; [now exists s|].
  simpl. destruct s as [|c' s]; [discriminate|].
  unfold char_eq. destruct (Ascii.eqb_spec c c') as [<-|]; [|discriminate].
  intros H. apply IH in H as [rest ->]. now exists rest.
Qed.

(** A plain keyword is found exactly in the texts that contain it. *)
Lemma search_lit_iff (n t : string) (prev : option ascii) :
  Re.search_from (Re.Pattern (Re.lit n) false) prev t = true
  <-> exists pre post, t = pre ++ n ++ post.
Proof.
  split.
  - revert prev. induction t as [|c t IH]; intros prev;
      rewrite search_from_unfold; unfold Re.match_here; cbn [Re.expr Re.ignorecase].
    + destruct (Re.run _ _ _ _ _) eqn:E; [|discriminate].
      intros _. apply lit_run_inv in E as [rest E]. now exists "", rest.
    + destruct (Re.run _ _ _ _ _) eqn:E.
      * intros _. apply lit_run_inv in E as [rest E]. now exists "", rest.
      * intros H. apply IH in H as (pre & post & ->).
        now exists (String c pre), post.
  - intros (pre & post & ->). revert prev.
    induction pre as [|c pre IH]; intros prev;
      rewrite search_from_unfold; unfold Re.match_here; cbn [Re.expr Re.ignorecase].
    + change ("" ++ n ++ post) with (n ++ post).
      now rewrite lit_run_here.
    + destruct (Re.run _ _ _ _ _); [reflexivity|]. apply IH.
Qed.

(** What [App.message] makes of an ordinary message event. *)
Lemma accepts_message (keyword : Re.pattern) (f : dict -> M unit)
      (ev : dict) (t : string) (w : World) (g : Globals) :
  lookup "type" ev = Some (VStr "message") ->
  lookup "subtype" ev = None ->
  lookup "text" ev = Some (VStr t) ->
  value_of (Bolt.accepts (Bolt.Listener (Bolt.message keyword) f) ev w g)
  = Return (negb (is_empty t) && Re.search keyword t).
Proof.
  intros Htype Hsub Htext.
  unfold Bolt.accepts, Bolt.matches, Bolt.middleware_passes, Bolt.subtype_ok,
    getitem, get.
  rewrite Htype, Hsub, Htext. cbn.
  now destruct t.
Qed.

(** What [App.event] makes of an event of a given type. *)
Lemma accepts_event (type : string) (f : dict -> M unit)
      (ev : dict) (v : value) (w : World) (g : Globals) :
  lookup "type" ev = Some v ->
  value_of (Bolt.accepts (Bolt.Listener (Bolt.event type) f) ev w g)
  = Return (eq_str v type).
Proof.
  intros Htype. unfold Bolt.accepts, Bolt.matches, Bolt.middleware_passes, getitem.
  rewrite Htype. cbn. now destruct (eq_str v type).
Qed.

(** A message event that no canned rule takes goes to the fallback. *)
Lemma unmatched_message_falls_back (ev : dict) (w : World) (g : Globals) :
  lookup "type" ev = Some (VStr "message") ->
  Forall (fun l => value_of (Bolt.accepts l ev w g) = Return false) canned ->
  on_event ev w g = handle_general_message ev w g.
Proof.
  intros Htype Hcanned. unfold on_event, app.
  change (canned ++ [ Bolt.Listener (Bolt.event "member_joined_channel")
                        welcome_new_member;
                      Bolt.Listener (Bolt.event "message")
                        handle_general_message ])%list
    with (canned ++ [ Bolt.Listener (Bolt.event "member_joined_channel")
                        welcome_new_member ]
                 ++ Bolt.Listener (Bolt.event "message")
                        handle_general_message :: [])%list.
  rewrite app_assoc.
  apply dispatch_first_match with (l := Bolt.Listener (Bolt.event "message")
                                          handle_general_message).
  - apply Forall_app. split; [assumption|].
    constructor; [|constructor].
    now rewrite accepts_event with (v := VStr "message").
  - now rewrite accepts_event with (v := VStr "message").
Qed.

#[local] Transparent Re.sub_from.

(* ===================================================================== *)
(** ** The patterns on the examples of the specification *)
(* ===================================================================== *)

Example greeting_pattern :
  Re.search re_hello "hello there" = true
  /\ Re.search re_hello "Hi!" = true
  /\ Re.search re_hello "hillside" = false
  /\ Re.search re_hello "oh hello" = false.
Proof. repeat split. Qed.

Example status_and_thanks_patterns :
  Re.search re_status "So, HOW ARE YOU?" = true
  /\ Re.search re_thanks "many Thanks!" = true
  /\ Re.search re_thanks "thank you" = true
  /\ Re.search re_thanks "thank" = false.
Proof. repeat split. Qed.

Example farewell_pattern :
  Re.search re_bye "Goodbye all" = true
  /\ Re.search re_bye "bye" = true
  /\ Re.search re_bye "byebye" = false.
Proof. repeat split. Qed.

Example mention_pattern :
  Re.search re_mention "ask <@U123> now" = true
  /\ Re.search re_mention "<@>" = false
  /\ Re.sub_empty re_mention "<@U123> explain <@U9>recursion" = " explain recursion"
  /\ strip (Re.sub_empty re_mention "<@U123> explain recursion") = "explain recursion".
Proof. repeat split. Qed.

Example tip_is_one_of_three (w : World) (g : Globals) :
  exists tip, In tip tips
              /\ give_tip (message_event "give me a tip" "channel") w g
                 = Outcome g [Say tip] (Return tt).
Proof.
  assert (H : random_int w mod 3 < 3) by (apply Nat.mod_upper_bound; lia).
  cbv [give_tip random_choice tips bind world ret say emit value_of trace
       globals_after List.length List.app].
  destruct (random_int w mod 3) as [|[|[|n]]]; [| | |lia];
    eexists; (split; [|reflexivity]); cbn; auto.
Qed.

(* ===================================================================== *)
(** ** Rule dispatch *)
(* ===================================================================== *)

(** C1 — Rule dispatch is first-match-wins in the order of registration.
    For every incoming event at most one reply is sent; and when a canned
    rule is the first listener to accept the event (every rule before it
    has declined), the run is that rule's handler and nothing more: the
    gateway is not called, whatever the listeners after it would make of
    the event. *)
Theorem first_match_wins (ev : dict) (w : World) (g : Globals) :
  List.length (says (trace (on_event ev w g))) <= 1
  /\ forall before l after,
       canned = (before ++ l :: after)%list ->
       Forall (fun l' => value_of (Bolt.accepts l' ev w g) = Return false)
              before ->
       value_of (Bolt.accepts l ev w g) = Return true ->
       on_event ev w g = Bolt.function l ev w g
       /\ gateway_calls (trace (on_event ev w g)) = [].
Proof.
  split.
  - unfold on_event.
    apply dispatch_inv
      with (P := fun o => List.length (says (trace o)) <= 1);
      [cbn; lia | intros e; cbn; lia |].
    intros l Hl. destruct (app_listeners _ Hl) as [H|[H|H]].
    + now apply one_reply_canned.
    + rewrite H. apply one_reply_welcome_new_member.
    + rewrite H. apply one_reply_handle_general_message.
  - intros before l after Hc Hb Hl.
    assert (Hin : In l canned) by (rewrite Hc; apply in_elt).
    assert (E : on_event ev w g = Bolt.function l ev w g).
    { unfold on_event, app. rewrite Hc, <- app_assoc, <- app_comm_cons.
      now apply dispatch_first_match. }
    split; [exact E|]. rewrite E.
    destruct (tame_canned _ ev Hin w g) as (_ & Ht & _).
    now apply is_say_no_call in Ht.
Qed.

(** A direct message "hello there": the greeting rule answers, and the
    fallback, which would take a direct message, is never reached. *)
Lemma greeting_before_fallback :
  on_event (message_event "hello there" "im")
           (world_answering (Answer 200 "OK" (Some (generated "Hi!"))))
           (globals_with_key (Some "k"))
  = Outcome (globals_with_key (Some "k")) [Say "Hello, <@U1>! 👋"] (Return tt)
  /\ gateway_calls
       (trace (on_event (message_event "hello there" "im")
                 (world_answering (Answer 200 "OK" (Some (generated "Hi!"))))
                 (globals_with_key (Some "k")))) = [].
Proof.
  destruct (first_match_wins
              (message_event "hello there" "im")
              (world_answering (Answer 200 "OK" (Some (generated "Hi!"))))
              (globals_with_key (Some "k"))) as [_ H].
  destruct (H [] (Bolt.Listener (Bolt.message re_hello) message_hello)
              (tl canned) eq_refl (Forall_nil _) eq_refl) as [E1 E2].
  split; [exact E1 | exact E2].
Defined.

(** The fallback handler ignores every event that carries [bot_id]. *)
Lemma fallback_ignores_bots (ev : dict) (w : World) (g : Globals) :
  has_key "bot_id" ev = true ->
  handle_general_message ev w g = Outcome g [] (Return tt).
Proof. intros H. unfold handle_general_message. now rewrite H. Qed.

(** C2 — An event that carries [bot_id] is ignored by the fallback handler
    only.  The canned rules do not look at the marker: a bot's "hello" is
    greeted. *)
Theorem bot_greeting_is_answered (w : World) (g : Globals) :
  has_key "bot_id" (bot_message_event "hello" "channel") = true
  /\ on_event (bot_message_event "hello" "channel") w g
     = Outcome g [Say "Hello, <@U1>! 👋"] (Return tt)
  /\ handle_general_message (bot_message_event "hello" "channel") w g
     = Outcome g [] (Return tt).
Proof. repeat split. Qed.

(** C3 — A message event without text makes the fallback handler raise
    [TypeError] ([re.search] on [None]); an event without sender makes the
    fallback handler, the greeting rule and the welcome handler raise
    [KeyError].  No reply is sent in any of these cases, but the exception
    leaves the handler. *)
Theorem malformed_event_raises (w : World) (g : Globals) :
  on_event textless_event w g = Outcome g [] (Raise TypeError)
  /\ on_event edited_event w g = Outcome g [] (Raise (KeyError "user"))
  /\ on_event senderless_event w g = Outcome g [] (Raise (KeyError "user"))
  /\ welcome_new_member [("type", VStr "member_joined_channel")] w g
     = Outcome g [] (Raise (KeyError "user")).
Proof. repeat split. Qed.

(* ===================================================================== *)
(** ** The fallback and its prompt *)
(* ===================================================================== *)

(** The gateway is entered by the fallback handler only, and with the
    cleaned text. *)
Lemma fallback_calls (ev : dict) (w : World) (g : Globals) (p : string) :
  In p (gateway_calls (trace (handle_general_message ev w g))) ->
  exists t, lookup "text" ev = Some (VStr t)
            /\ p = strip (Re.sub_empty re_mention t).
Proof.
  destruct (has_key "bot_id" ev) eqn:Hbot.
  { rewrite fallback_ignores_bots by assumption. intros []. }
  destruct (lookup "user" ev) as [u|] eqn:Huser.
  - destruct (lookup "text" ev) as [[| | |t| |]|] eqn:Htext;
      try (unfold handle_general_message, getitem, get;
           rewrite Hbot, Huser, Htext; intros []).
    rewrite (fallback_run ev t u w g Hbot Htext Huser).
    destruct (qualifies ev t); [|intros []].
    destruct (answer_with_run (strip (Re.sub_empty re_mention t)) w g)
      as [-> _].
    intros [<-|[]]. now exists t.
  - unfold handle_general_message, getitem.
    rewrite Hbot, Huser. intros [].
Qed.

Lemma calls_on_event (ev : dict) (w : World) (g : Globals) (p : string) :
  In p (gateway_calls (trace (on_event ev w g))) ->
  In p (gateway_calls (trace (handle_general_message ev w g))).
Proof.
  unfold on_event. revert p.
  apply dispatch_inv
    with (P := fun o => forall p, In p (gateway_calls (trace o)) ->
                 In p (gateway_calls (trace (handle_general_message ev w g))));
    [intros p [] | intros e p [] |].
  intros l Hl p. destruct (app_listeners _ Hl) as [H|[H|H]].
  - destruct (tame_canned _ ev H w g) as (_ & Ht & _).
    apply is_say_no_call in Ht as [-> _]. intros [].
  - rewrite H. destruct (tame_welcome_new_member ev w g) as (_ & Ht & _).
    apply is_say_no_call in Ht as [-> _]. intros [].
  - now rewrite H.
Qed.

(** C4, as stated, fails: a text that is one mention token qualifies for
    the fallback, and what is left of it is the empty prompt, which the
    gateway receives. *)
Lemma empty_prompt_reaches_gateway :
  gateway_calls
    (trace (on_event (message_event "<@U123>" "channel")
              (world_answering (Answer 200 "OK" (Some (generated "Hi!"))))
              (globals_with_key (Some "k")))) = [""]
  /\ gateway_calls
       (trace (on_event (message_event "   " "im")
                 (world_answering (Answer 200 "OK" (Some (generated "Hi!"))))
                 (globals_with_key (Some "k")))) = [""].
Proof. split; reflexivity. Qed.

(** C4, amended — Whenever the gateway is called, its prompt is the text of
    the event with the mention tokens removed and the surrounding white
    space stripped; the prompt is empty exactly when nothing but white
    space is left once the mentions are removed. *)
Theorem prompt_is_cleaned_text (ev : dict) (w : World) (g : Globals) (p : string) :
  In p (gateway_calls (trace (on_event ev w g))) ->
  exists t,
    lookup "text" ev = Some (VStr t)
    /\ p = strip (Re.sub_empty re_mention t)
    /\ (p = "" <-> all_chars is_space (Re.sub_empty re_mention t) = true).
Proof.
  intros H. apply calls_on_event, fallback_calls in H as (t & Ht & ->).
  exists t. repeat split; auto; apply strip_empty_iff.
Qed.

Lemma prompt_is_cleaned_text_example :
  exists t,
    lookup "text" (message_event "<@U123> explain recursion" "channel")
    = Some (VStr t)
    /\ "explain recursion" = strip (Re.sub_empty re_mention t)
    /\ ("explain recursion" = ""
        <-> all_chars is_space (Re.sub_empty re_mention t) = true).
Proof.
  apply (prompt_is_cleaned_text
           (message_event "<@U123> explain recursion" "channel")
           (world_answering (Answer 200 "OK" (Some (generated "Hi!"))))
           (globals_with_key (Some "k"))
           "explain recursion").
  simpl. left. reflexivity.
Defined.

Lemma channel_is_im (ev : dict) :
  eq_str (get ev "channel_type" VNone) "im" = true
  <-> lookup "channel_type" ev = Some (VStr "im").
Proof.
  unfold get, eq_str.
  destruct (lookup "channel_type" ev) as [[| | |s| |]|];
    try (split; congruence).
  rewrite String.eqb_eq. split; congruence.
Qed.

Lemma qualifies_iff (ev : dict) (t : string) :
  qualifies ev t = true
  <-> has_mention t \/ lookup "channel_type" ev = Some (VStr "im").
Proof.
  unfold qualifies.
  now rewrite orb_true_iff, search_mention_iff, channel_is_im.
Qed.

(** C6 — A message event with text and sender, not from a bot, that none
    of the six canned rules takes: when its text holds a mention token or
    its channel is a direct message, the gateway is called once, with the
    text cleaned of its mention tokens and stripped, and what the gateway
    returns is the reply; otherwise nothing happens at all. *)
Theorem fallback_rule (ev : dict) (t : string) (u : value)
        (w : World) (g : Globals) :
  lookup "type" ev = Some (VStr "message") ->
  has_key "bot_id" ev = false ->
  lookup "text" ev = Some (VStr t) ->
  lookup "user" ev = Some u ->
  Forall (fun l => value_of (Bolt.accepts l ev w g) = Return false) canned ->
  let prompt := strip (Re.sub_empty re_mention t) in
  (has_mention t \/ lookup "channel_type" ev = Some (VStr "im") ->
   on_event ev w g = answer_with prompt w g
   /\ gateway_calls (trace (on_event ev w g)) = [prompt]
   /\ forall answer,
        value_of (get_gemini_response prompt w g) = Return (VStr answer) ->
        says (trace (on_event ev w g)) = [answer])
  /\ (~ (has_mention t \/ lookup "channel_type" ev = Some (VStr "im")) ->
      on_event ev w g = Outcome g [] (Return tt)).
Proof.
  intros Htype Hbot Htext Huser Hcanned prompt.
  rewrite (unmatched_message_falls_back ev w g Htype Hcanned),
    (fallback_run ev t u w g Hbot Htext Huser).
  fold prompt. rewrite <- qualifies_iff.
  destruct (qualifies ev t); split; try congruence.
  intros _. destruct (answer_with_run prompt w g) as [Hc Hs].
  repeat split; [exact Hc|].
  intros answer Ha. now rewrite Hs, Ha.
Qed.

(** The example of the specification: a mention in a public channel. *)
Lemma fallback_rule_example :
  gateway_calls
    (trace (on_event (message_event "<@U123> explain recursion" "channel")
              (world_answering
                 (Answer 200 "OK" (Some (generated "A function calling itself."))))
              (globals_with_key (Some "k"))))
  = ["explain recursion"]
  /\ says
       (trace (on_event (message_event "<@U123> explain recursion" "channel")
                 (world_answering
                    (Answer 200 "OK" (Some (generated "A function calling itself."))))
                 (globals_with_key (Some "k"))))
     = ["A function calling itself."].
Proof.
  assert (Hcanned :
            Forall (fun l =>
                      value_of
                        (Bolt.accepts l
                           (message_event "<@U123> explain recursion" "channel")
                           (world_answering
                              (Answer 200 "OK"
                                 (Some (generated "A function calling itself."))))
                           (globals_with_key (Some "k")))
                      = Return false) canned)
    by (repeat constructor).
  destruct (fallback_rule
              (message_event "<@U123> explain recursion" "channel")
              "<@U123> explain recursion" (VStr "U1")
              (world_answering
                 (Answer 200 "OK" (Some (generated "A function calling itself."))))
              (globals_with_key (Some "k"))
              eq_refl eq_refl eq_refl eq_refl Hcanned) as [H _].
  assert (Hm : has_mention "<@U123> explain recursion").
  { exists "", "U123", " explain recursion".
    split; [split; [discriminate | reflexivity] | reflexivity]. }
  destruct (H (or_introl Hm)) as (_ & Hc & Hs).
  split; [exact Hc | exact (Hs _ eq_refl)].
Defined.

(** C10 — The fallback does not ask whom a mention names.  A message, not
    from a bot, whose text holds the token of any identifier [W] qualifies,
    in any kind of channel; and the token is removed from the prompt like
    every other one. *)
Theorem any_mention_qualifies (ev : dict) (u : value) (pre W post : string)
        (w : World) (g : Globals) :
  has_key "bot_id" ev = false ->
  lookup "user" ev = Some u ->
  lookup "text" ev = Some (VStr (pre ++ mention W ++ post)) ->
  identifier W ->
  qualifies ev (pre ++ mention W ++ post) = true
  /\ gateway_calls (trace (handle_general_message ev w g))
     = [strip (Re.sub_empty re_mention pre ++ Re.sub_empty re_mention post)].
Proof.
  intros Hbot Huser Htext HW.
  assert (Hq : qualifies ev (pre ++ mention W ++ post) = true).
  { apply qualifies_iff. left. now exists pre, W, post. }
  split; [exact Hq|].
  rewrite (fallback_run ev _ u w g Hbot Htext Huser), Hq.
  rewrite (sub_mention_app pre W post HW).
  apply answer_with_run.
Qed.

(** A mention of somebody else, in a public channel. *)
Lemma any_mention_qualifies_example :
  qualifies (message_event "hey <@U2ALICE> lunch?" "channel")
            "hey <@U2ALICE> lunch?" = true
  /\ gateway_calls
       (trace (handle_general_message
                 (message_event "hey <@U2ALICE> lunch?" "channel")
                 (world_answering (Answer 200 "OK" (Some (generated "Hi!"))))
                 (globals_with_key (Some "k"))))
     = ["hey  lunch?"].
Proof.
  apply (any_mention_qualifies
           (message_event "hey <@U2ALICE> lunch?" "channel")
           (VStr "U1") "hey " "U2ALICE" " lunch?"
           (world_answering (Answer 200 "OK" (Some (generated "Hi!"))))
           (globals_with_key (Some "k"))
           eq_refl eq_refl eq_refl).
  split; [discriminate | reflexivity].
Defined.

(* ===================================================================== *)
(** ** The gateway *)
(* ===================================================================== *)

(** C7 — Without an API key (the name unset, or set to the empty string)
    the gateway prints its notice and returns the offline reply at once:
    no request is made. *)
Theorem offline_without_key (prompt : string) (w : World) (g : Globals) :
  GEMINI_API_KEY g = None \/ GEMINI_API_KEY g = Some "" ->
  get_gemini_response prompt w g
  = Outcome g
      [ Call "get_gemini_response" prompt; Stdout "GEMINI_API_KEY is not set." ]
      (Return (VStr "I can't answer that right now. My AI brain is offline."))
  /\ posts (trace (get_gemini_response prompt w g)) = [].
Proof.
  intros H.
  assert (Hk : key_missing (GEMINI_API_KEY g) = true)
    by (destruct H as [-> | ->]; reflexivity).
  assert (E : get_gemini_response prompt w g
              = Outcome g
                  [ Call "get_gemini_response" prompt;
                    Stdout "GEMINI_API_KEY is not set." ]
                  (Return (VStr offline_reply))).
  { unfold get_gemini_response.
    rewrite bind_run. cbn [emit value_of globals_after trace].
    rewrite bind_run. cbn [global value_of globals_after trace].
    rewrite Hk. reflexivity. }
  rewrite E. split; reflexivity.
Qed.

Lemma offline_without_key_example :
  get_gemini_response "explain recursion"
    (world_answering (Answer 200 "OK" (Some (generated "Hi!"))))
    (globals_with_key None)
  = Outcome (globals_with_key None)
      [ Call "get_gemini_response" "explain recursion";
        Stdout "GEMINI_API_KEY is not set." ]
      (Return (VStr "I can't answer that right now. My AI brain is offline."))
  /\ posts
       (trace (get_gemini_response "explain recursion"
                 (world_answering (Answer 200 "OK" (Some (generated "Hi!"))))
                 (globals_with_key None))) = [].
Proof.
  apply (offline_without_key "explain recursion"
           (world_answering (Answer 200 "OK" (Some (generated "Hi!"))))
           (globals_with_key None)).
  left. reflexivity.
Defined.

(** C5 — A response whose [candidates] list is empty makes the gateway
    raise [IndexError], which is no [RequestException] and so passes its
    [except] clause.  (A transport failure and an HTTP error status are
    caught, and a document without [candidates] gets the default.) *)
Theorem gateway_raises_on_empty_candidates (prompt : string) :
  value_of
    (get_gemini_response prompt
       (world_answering
          (Answer 200 "OK" (Some (VDict [("candidates", VList [])]))))
       (globals_with_key (Some "k")))
  = Raise IndexError
  /\ value_of
       (get_gemini_response prompt
          (world_answering (Failure "Connection refused"))
          (globals_with_key (Some "k")))
     = Return (VStr trouble_reply)
  /\ value_of
       (get_gemini_response prompt
          (world_answering (Answer 503 "Service Unavailable" None))
          (globals_with_key (Some "k")))
     = Return (VStr trouble_reply)
  /\ value_of
       (get_gemini_response prompt
          (world_answering (Answer 200 "OK" (Some (VDict []))))
          (globals_with_key (Some "k")))
     = Return (VStr "No response found.").
Proof. repeat split. Qed.

(* ===================================================================== *)
(** ** The ping rule *)
(* ===================================================================== *)

(** C8, as stated, fails: the text " ping " is taken by the ping rule and
    answered "pong". *)
Lemma padded_ping_is_answered :
  value_of
    (Bolt.accepts (Bolt.Listener (Bolt.message re_ping) ping_pong)
       (message_event " ping " "channel")
       (world_answering (Failure "offline")) (globals_with_key None))
  = Return true
  /\ on_event (message_event " ping " "channel")
       (world_answering (Failure "offline")) (globals_with_key None)
     = Outcome (globals_with_key None) [Say "pong"] (Return tt).
Proof. split; reflexivity. Qed.

(** The text "Ping" is not taken by any rule; in a public channel and
    without a mention it is not answered at all. *)
Lemma capital_ping_falls_through :
  value_of
    (Bolt.accepts (Bolt.Listener (Bolt.message re_ping) ping_pong)
       (message_event "Ping" "channel")
       (world_answering (Failure "offline")) (globals_with_key None))
  = Return false
  /\ on_event (message_event "Ping" "channel")
       (world_answering (Failure "offline")) (globals_with_key None)
     = Outcome (globals_with_key None) [] (Return tt).
Proof. split; reflexivity. Qed.

(** C8, amended — The ping rule takes an ordinary message event exactly
    when its text contains "ping", in this case, anywhere; its reply is
    "pong". *)
Theorem ping_rule (ev : dict) (t : string) (w : World) (g : Globals) :
  lookup "type" ev = Some (VStr "message") ->
  lookup "subtype" ev = None ->
  lookup "text" ev = Some (VStr t) ->
  (value_of (Bolt.accepts (Bolt.Listener (Bolt.message re_ping) ping_pong)
                          ev w g) = Return true
   <-> exists pre post, t = pre ++ "ping" ++ post)
  /\ ping_pong ev w g = Outcome g [Say "pong"] (Return tt).
Proof.
  intros Htype Hsub Htext. split; [|reflexivity].
  rewrite (accepts_message re_ping ping_pong ev t w g Htype Hsub Htext).
  unfold Re.search, re_ping. rewrite <- (search_lit_iff "ping" t None).
  destruct t as [|c t]; [split; discriminate|].
  cbn [is_empty negb andb]. split; congruence.
Qed.

Lemma ping_rule_example :
  (value_of (Bolt.accepts (Bolt.Listener (Bolt.message re_ping) ping_pong)
               (message_event "ping" "channel")
               (world_answering (Failure "offline")) (globals_with_key None))
   = Return true
   <-> exists pre post, "ping" = pre ++ "ping" ++ post)
  /\ ping_pong (message_event "ping" "channel")
       (world_answering (Failure "offline")) (globals_with_key None)
     = Outcome (globals_with_key None) [Say "pong"] (Return tt).
Proof.
  apply (ping_rule (message_event "ping" "channel") "ping"
           (world_answering (Failure "offline")) (globals_with_key None));
    reflexivity.
Defined.

(* ===================================================================== *)
(** ** The credentials *)
(* ===================================================================== *)

(** C9, as stated, fails: on an HTTP error status the line the gateway
    prints quotes the request URL, and with it the API key. *)
Lemma api_key_in_error_log :
  printed
    (trace (get_gemini_response "hi"
              (world_answering (Answer 403 "Forbidden" None))
              (globals_with_key (Some "SECRET"))))
  = [ "Error calling Gemini API: 403 Client Error: Forbidden for url: https://generativelanguage.googleapis.com/v1beta/models/gemini-pro:generateContent?key=SECRET" ]
  /\ existsb (contains "SECRET")
       (printed
          (trace (get_gemini_response "hi"
                    (world_answering (Answer 403 "Forbidden" None))
                    (globals_with_key (Some "SECRET")))))
     = true.
Proof. split; reflexivity. Qed.

(** C9, amended — The three names are bound from the environment when the
    module is loaded, and no event changes them.  Of the three only
    [GEMINI_API_KEY] has an influence on what the program does: the two
    Slack tokens reach no reply, no request and no printed line.  The
    program prints two kinds of lines only: the notice that the key is not
    set, and "Error calling Gemini API: " followed by the text of the
    exception it caught. *)
Theorem credentials_untouched (ev : dict) (w : World) (g : Globals) :
  (forall environ,
      load_globals environ
      = {| SLACK_BOT_TOKEN := environ "SLACK_BOT_TOKEN";
           SLACK_APP_TOKEN := environ "SLACK_APP_TOKEN";
           GEMINI_API_KEY := environ "GEMINI_API_KEY" |})
  /\ globals_after (on_event ev w g) = g
  /\ (forall g',
         GEMINI_API_KEY g = GEMINI_API_KEY g' ->
         trace (on_event ev w g') = trace (on_event ev w g)
         /\ value_of (on_event ev w g') = value_of (on_event ev w g))
  /\ (forall line,
         In line (printed (trace (on_event ev w g))) ->
         line = "GEMINI_API_KEY is not set."
         \/ exists x, line = "Error calling Gemini API: " ++ Requests.text_of x).
Proof.
  destruct (tame_on_event ev w g) as (Hg & Ht & Hk).
  split; [reflexivity|]. split; [exact Hg|]. split; [exact Hk|].
  intros line. now apply known_line_printed.
Qed.

(* ===================================================================== *)
(** ** The patterns of the rules, in plain terms *)
(* ===================================================================== *)

Lemma is_word_lower (c : ascii) : is_word (lower c) = is_word c.
Proof. destruct c as [[|] [|] [|] [|] [|] [|] [|] [|]]; reflexivity. Qed.

Lemma char_eq_word (ic : bool) (x c : ascii) :
  char_eq ic x c = true -> is_word c = is_word x.
Proof.
  unfold char_eq. destruct ic; rewrite Ascii.eqb_eq.
  - intros H. now rewrite <- (is_word_lower c), <- H, is_word_lower.
  - now intros ->.
Qed.

Lemma text_eq_last_word (ic : bool) (h n : string) (p p' : option ascii) :
  text_eq ic h n = true ->
  Re.word_opt p = Re.word_opt p' ->
  Re.word_opt (last_char p h) = Re.word_opt (last_char p' n).
Proof.
  revert n p p'. induction h as [|c h IH]; intros [|x n] p p' H Hp;
    simpl in H; try discriminate; [exact Hp|].
  apply andb_prop in H as [Hc Hn]. simpl.
  apply IH; [exact Hn|]. simpl. now apply char_eq_word with (ic := ic).
Qed.

Lemma text_eq_exact (h n : string) : text_eq false h n = true <-> h = n.
Proof.
  revert n. induction h as [|c h IH]; intros [|x n]; simpl;
    try (split; congruence).
  unfold char_eq. rewrite andb_true_iff, Ascii.eqb_eq, IH.
  split; [intros [-> ->]; reflexivity | intros [= -> ->]; auto].
Qed.

(** A keyword matched at a position: the subject begins with the same
    text, and the match goes on after it. *)
Lemma lit_run_inv_gen (ic : bool) (n s r : string) (prev : option ascii)
      (k : Re.cont) :
  Re.run ic (Re.lit n) prev s k = Some r ->
  exists h rest,
    s = h ++ rest /\ text_eq ic h n = true
    /\ k (last_char prev h) rest = Some r.
Proof.
  revert prev s. induction n as [|c n IH]; intros prev s; simpl.
  - intros H. now exists "", s.
  - destruct s as [|c' s]; [discriminate|].
    destruct (char_eq ic c c') eqn:E; [|discriminate].
    intros H. apply IH in H as (h & rest & -> & Ht & Hk).
    exists (String c' h), rest. simpl. now rewrite E, Ht.
Qed.

Lemma lit_run_here_gen (ic : bool) (n h rest : string) (prev : option ascii)
      (k : Re.cont) :
  text_eq ic h n = true ->
  Re.run ic (Re.lit n) prev (h ++ rest) k = k (last_char prev h) rest.
Proof.
  revert h prev. induction n as [|c n IH]; intros [|c' h] prev H;
    simpl in H; try discriminate; [reflexivity|].
  apply andb_prop in H as [Hc Hn]. simpl. rewrite Hc. now apply IH.
Qed.

(** A pattern whose matches are the texts that begin with some [h] in [P]
    is found exactly in the texts that hold such an [h]. *)
Lemma search_from_iff (p : Re.pattern) (P : string -> Prop) :
  (forall prev s,
      (exists r, Re.match_here p prev s = Some r)
      <-> exists h rest, s = h ++ rest /\ P h) ->
  forall prev t,
    Re.search_from p prev t = true
    <-> exists pre h post, t = pre ++ h ++ post /\ P h.
Proof.
  intros Hp prev t. split.
  - revert prev. induction t as [|c t IH]; intros prev;
      rewrite search_from_unfold;
      destruct (Re.match_here p prev _) as [r|] eqn:E.
    + intros _. destruct (proj1 (Hp prev "") (ex_intro _ r E))
        as (h & rest & Hs & Hh).
      now exists "", h, rest.
    + discriminate.
    + intros _. destruct (proj1 (Hp prev (String c t)) (ex_intro _ r E))
        as (h & rest & Hs & Hh).
      now exists "", h, rest.
    + intros H. apply IH in H as (pre & h & post & -> & Hh).
      now exists (String c pre), h, post.
  - intros (pre & h & post & -> & Hh). revert prev.
    induction pre as [|c pre IH]; intros prev; rewrite search_from_unfold.
    + change ("" ++ h ++ post) with (h ++ post).
      destruct (proj2 (Hp prev (h ++ post))) as [r ->]; [|reflexivity].
      now exists h, post.
    + destruct (Re.match_here p prev _); [reflexivity|]. apply IH.
Qed.

(** A keyword, or one of two, searched with [re.IGNORECASE]. *)
Lemma match_lit_iff (ic : bool) (n : string) (prev : option ascii) (s : string) :
  (exists r, Re.match_here (Re.Pattern (Re.lit n) ic) prev s = Some r)
  <-> exists h rest, s = h ++ rest /\ text_eq ic h n = true.
Proof.
  unfold Re.match_here. cbn [Re.expr Re.ignorecase]. split.
  - intros [r H]. apply lit_run_inv_gen in H as (h & rest & -> & Ht & _).
    now exists h, rest.
  - intros (h & rest & -> & Ht). exists rest.
    now rewrite lit_run_here_gen.
Qed.

Lemma search_status_iff (t : string) :
  Re.search re_status t = true <-> inquiry t.
Proof.
  unfold Re.search, inquiry, holds_text.
  apply search_from_iff with (P := fun h => text_eq true h "how are you" = true).
  intros prev s. unfold Re.match_here, re_status.
  cbn [Re.expr Re.ignorecase Re.run]. split.
  - intros [r H]. apply lit_run_inv_gen in H as (h & rest & -> & Ht & _).
    now exists h, rest.
  - intros (h & rest & -> & Ht). rewrite lit_run_here_gen by exact Ht.
    destruct rest as [|c rest]; [now exists ""|].
    destruct (Re.atom_ok true (Re.Chr "?") c); eauto.
Qed.

Lemma search_thanks_iff (t : string) :
  Re.search re_thanks t = true <-> thanks t.
Proof.
  unfold Re.search, thanks, holds_text.
  rewrite (search_from_iff re_thanks
             (fun h => text_eq true h "thanks" = true
                       \/ text_eq true h "thank you" = true)).
  - split.
    + intros (pre & h & post & -> & [H|H]); [left | right];
        now exists pre, h, post.
    + intros [(pre & h & post & -> & H)|(pre & h & post & -> & H)];
        exists pre, h, post; auto.
  - intros prev s. unfold Re.match_here, re_thanks.
    cbn [Re.expr Re.ignorecase Re.run]. split.
    + intros [r H].
      destruct (Re.run true (Re.lit "thanks") prev s _) as [r1|] eqn:E1.
      * apply lit_run_inv_gen in E1 as (h & rest & -> & Ht & _).
        exists h, rest. auto.
      * apply lit_run_inv_gen in H as (h & rest & -> & Ht & _).
        exists h, rest. auto.
    + intros (h & rest & -> & [Ht|Ht]).
      * rewrite lit_run_here_gen by exact Ht. now exists rest.
      * destruct (Re.run true (Re.lit "thanks") prev (h ++ rest) _) as [r1|];
          [now exists r1|].
        rewrite lit_run_here_gen by exact Ht. now exists rest.
Qed.

Lemma search_exact_iff (n t : string) :
  Re.search (Re.Pattern (Re.lit n) false) t = true <-> holds_exactly n t.
Proof. apply search_lit_iff. Qed.

(** An anchored pattern is found at the start of the text or nowhere. *)
Lemma bol_later (ic : bool) (r : Re.regex) (c : ascii) (s : string) :
  Re.search_from (Re.Pattern (Re.Seq Re.Bol r) ic) (Some c) s = false.
Proof.
  revert c. induction s as [|c' s IH]; intros c; [reflexivity|].
  rewrite search_from_unfold. unfold Re.match_here.
  cbn [Re.expr Re.ignorecase Re.run]. apply IH.
Qed.

Lemma search_bol (ic : bool) (r : Re.regex) (t : string) :
  Re.search (Re.Pattern (Re.Seq Re.Bol r) ic) t = true
  <-> exists rest, Re.run ic r None t (fun _ x => Some x) = Some rest.
Proof.
  unfold Re.search. rewrite search_from_unfold. unfold Re.match_here.
  cbn [Re.expr Re.ignorecase Re.run].
  destruct (Re.run ic r None t _) as [rest|].
  - split; [intros _; now exists rest | reflexivity].
  - destruct t as [|c t]; [|rewrite bol_later];
      (split; [discriminate | intros [rest H]; discriminate]).
Qed.

(** The shape of the greeting and of the farewell pattern: one of two
    words at the start of the text, whole. *)
Lemma search_first_word (a b t : string) :
  Re.word_opt (last_char None a) = true ->
  Re.word_opt (last_char None b) = true ->
  Re.search
    (Re.Pattern (Re.Seq Re.Bol (Re.Seq (Re.Alt (Re.lit a) (Re.lit b)) Re.Boundary))
       true) t = true
  <-> begins_with_word a t \/ begins_with_word b t.
Proof.
  intros Ha Hb. rewrite search_bol. cbn [Re.run].
  assert (Hinv : forall n s rest,
             Re.word_opt (last_char None n) = true ->
             Re.run true (Re.lit n) None s
               (fun p x =>
                  if xorb (Re.word_opt p) (Re.word_opt (Re.head x))
                  then Some x else None) = Some rest ->
             begins_with_word n s).
  { intros n s rest Hn H.
    apply lit_run_inv_gen in H as (h & x & -> & Ht & Hk).
    exists h, x. repeat split; [exact Ht|].
    rewrite (text_eq_last_word true h n None None Ht eq_refl), Hn in Hk.
    now destruct (Re.word_opt (Re.head x)). }
  assert (Hhere : forall n s,
             Re.word_opt (last_char None n) = true ->
             begins_with_word n s ->
             Re.run true (Re.lit n) None s
               (fun p x =>
                  if xorb (Re.word_opt p) (Re.word_opt (Re.head x))
                  then Some x else None) <> None).
  { intros n s Hn (h & x & -> & Ht & Hx).
    rewrite lit_run_here_gen by exact Ht.
    rewrite (text_eq_last_word true h n None None Ht eq_refl), Hn, Hx.
    discriminate. }
  split.
  - intros [rest H].
    destruct (Re.run true (Re.lit a) None t _) as [r1|] eqn:E1.
    + left. now apply Hinv with (rest := r1).
    + right. now apply Hinv with (rest := rest).
  - intros [H|H].
    + apply (Hhere a t Ha) in H.
      destruct (Re.run true (Re.lit a) None t _) as [r1|]; [|congruence].
      now exists r1.
    + apply (Hhere b t Hb) in H.
      destruct (Re.run true (Re.lit a) None t _) as [r1|]; [now exists r1|].
      destruct (Re.run true (Re.lit b) None t _) as [r2|]; [|congruence].
      now exists r2.
Qed.

Lemma search_hello_iff (t : string) :
  Re.search re_hello t = true <-> greeting t.
Proof. now apply search_first_word. Qed.

Lemma search_bye_iff (t : string) :
  Re.search re_bye t = true <-> farewell t.
Proof. now apply search_first_word. Qed.

(* ===================================================================== *)
(** ** The canned rules on ordinary messages *)
(* ===================================================================== *)

Lemma accepts_plain (keyword : Re.pattern) (f : dict -> M unit)
      (ev : dict) (t u : string) (w : World) (g : Globals) :
  plain_message ev t u ->
  value_of (Bolt.accepts (Bolt.Listener (Bolt.message keyword) f) ev w g)
  = Return (negb (is_empty t) && Re.search keyword t).
Proof.
  intros (Htype & Hsub & Htext & _). now apply accepts_message.
Qed.

Lemma declines_plain (keyword : Re.pattern) (f : dict -> M unit)
      (ev : dict) (t u : string) (w : World) (g : Globals) :
  plain_message ev t u ->
  Re.search keyword t <> true ->
  value_of (Bolt.accepts (Bolt.Listener (Bolt.message keyword) f) ev w g)
  = Return false.
Proof.
  intros Hev Hs. rewrite (accepts_plain keyword f ev t u w g Hev).
  destruct (Re.search keyword t); [congruence|]. now rewrite andb_false_r.
Qed.

Lemma takes_plain (keyword : Re.pattern) (f : dict -> M unit)
      (ev : dict) (t u : string) (w : World) (g : Globals) :
  plain_message ev t u ->
  Re.search keyword "" = false ->
  Re.search keyword t = true ->
  value_of (Bolt.accepts (Bolt.Listener (Bolt.message keyword) f) ev w g)
  = Return true.
Proof.
  intros Hev H0 Hs. rewrite (accepts_plain keyword f ev t u w g Hev), Hs.
  destruct t; [congruence | reflexivity].
Qed.

(** The first canned listener that takes the event is the one that runs. *)
Lemma canned_rule_runs (before : list Bolt.listener) (l : Bolt.listener)
      (after : list Bolt.listener) (ev : dict) (w : World) (g : Globals) :
  canned = (before ++ l :: after)%list ->
  Forall (fun l' => value_of (Bolt.accepts l' ev w g) = Return false) before ->
  value_of (Bolt.accepts l ev w g) = Return true ->
  on_event ev w g = Bolt.function l ev w g.
Proof.
  intros Hc Hb Hl. unfold on_event, app.
  rewrite Hc, <- app_assoc, <- app_comm_cons.
  now apply dispatch_first_match.
Qed.

Lemma reply_to_sender (m : dict) (u : string) (before after : string)
      (w : World) (g : Globals) :
  lookup "user" m = Some (VStr u) ->
  (user <- getitem m "user" ;; x <- str user ;; say (before ++ x ++ after))%py
    w g
  = Outcome g [Say (before ++ u ++ after)] (Return tt).
Proof. intros H. unfold getitem. now rewrite H. Qed.

Lemma begins_head (k : ascii) (kw t : string) :
  begins_with_word (String k kw) t ->
  exists c t', t = String c t' /\ lower k = lower c.
Proof.
  intros (h & rest & -> & Ht & _).
  destruct h as [|c h]; [discriminate|].
  simpl in Ht. apply andb_prop in Ht as [Hc _].
  unfold char_eq in Hc. apply Ascii.eqb_eq in Hc.
  now exists c, (h ++ rest).
Qed.

(** A text cannot begin with a greeting and with a farewell. *)
Lemma farewell_not_greeting (t : string) : farewell t -> ~ greeting t.
Proof.
  intros Hf Hg.
  assert (Hh : exists c t', t = String c t' /\ lower "h" = lower c)
    by (destruct Hg as [H|H]; exact (begins_head _ _ _ H)).
  destruct Hh as (c & t' & -> & Hc).
  destruct Hf as [H|H]; apply begins_head in H as (c' & t'' & [= <- <-] & Hc');
    rewrite <- Hc in Hc'; vm_compute in Hc'; discriminate.
Qed.

Ltac declined ev t u :=
  match goal with
  | |- value_of (Bolt.accepts _ _ _ _) = Return false =>
      apply declines_plain with (t := t) (u := u); [assumption|];
      let H := fresh in
      intros H;
      first [ apply search_hello_iff in H
            | apply search_status_iff in H
            | apply search_exact_iff in H
            | apply search_thanks_iff in H
            | apply search_bye_iff in H ];
      contradiction
  end.

(** X1 — The greeting rule.  On an ordinary message the first listener
    takes the event exactly when the text begins with the word "hello" or
    "hi", in any letter case; and then the sender is greeted, whatever else
    the text holds. *)
Theorem greeting_rule (ev : dict) (t u : string) (w : World) (g : Globals) :
  plain_message ev t u ->
  (value_of (Bolt.accepts (Bolt.Listener (Bolt.message re_hello) message_hello)
                          ev w g) = Return true
   <-> greeting t)
  /\ (greeting t ->
      on_event ev w g = Outcome g [Say ("Hello, <@" ++ u ++ ">! 👋")] (Return tt)).
Proof.
  intros Hev.
  assert (Hacc : greeting t ->
                 value_of (Bolt.accepts
                             (Bolt.Listener (Bolt.message re_hello) message_hello)
                             ev w g) = Return true).
  { intros H. apply takes_plain with (t := t) (u := u);
      [assumption | reflexivity | now apply search_hello_iff]. }
  split; [split; [|exact Hacc]|].
  - rewrite (accepts_plain re_hello message_hello ev t u w g Hev).
    intros [= H]. apply andb_prop in H as [_ H]. now apply search_hello_iff.
  - intros H.
    rewrite (canned_rule_runs []
               (Bolt.Listener (Bolt.message re_hello) message_hello)
               (tl canned) ev w g eq_refl (Forall_nil _) (Hacc H)).
    cbn [Bolt.function]. unfold message_hello.
    apply reply_to_sender with (before := "Hello, <@") (after := ">! 👋").
    apply Hev.
Qed.

Lemma greeting_rule_example :
  (value_of (Bolt.accepts (Bolt.Listener (Bolt.message re_hello) message_hello)
               (message_event "Hi, thanks for the ping" "channel")
               (world_answering (Failure "offline")) (globals_with_key None))
   = Return true
   <-> greeting "Hi, thanks for the ping")
  /\ (greeting "Hi, thanks for the ping" ->
      on_event (message_event "Hi, thanks for the ping" "channel")
        (world_answering (Failure "offline")) (globals_with_key None)
      = Outcome (globals_with_key None) [Say "Hello, <@U1>! 👋"] (Return tt)).
Proof.
  apply (greeting_rule (message_event "Hi, thanks for the ping" "channel")
           "Hi, thanks for the ping" "U1"
           (world_answering (Failure "offline")) (globals_with_key None)).
  repeat split.
Defined.

(** X2 — The status rule.  An ordinary message that is no greeting and
    holds "how are you", in any letter case, is answered by the status
    reply to its sender; the question mark of the pattern plays no part. *)
Theorem status_rule (ev : dict) (t u : string) (w : World) (g : Globals) :
  plain_message ev t u ->
  ~ greeting t ->
  inquiry t ->
  on_event ev w g
  = Outcome g [Say ("I'm doing great, <@" ++ u ++ ">! Thanks for asking.")]
      (Return tt).
Proof.
  intros Hev Hg Hi.
  rewrite (canned_rule_runs
             [ Bolt.Listener (Bolt.message re_hello) message_hello ]
             (Bolt.Listener (Bolt.message re_status) message_status)
             (tl (tl canned)) ev w g eq_refl).
  - cbn [Bolt.function]. unfold message_status.
    apply reply_to_sender
      with (before := "I'm doing great, <@") (after := ">! Thanks for asking.").
    apply Hev.
  - repeat constructor; declined ev t u.
  - apply takes_plain with (t := t) (u := u);
      [assumption | reflexivity | now apply search_status_iff].
Qed.

Lemma status_rule_example :
  on_event (message_event "So, HOW ARE YOU" "channel")
    (world_answering (Failure "offline")) (globals_with_key None)
  = Outcome (globals_with_key None)
      [Say "I'm doing great, <@U1>! Thanks for asking."] (Return tt).
Proof.
  apply (status_rule (message_event "So, HOW ARE YOU" "channel")
           "So, HOW ARE YOU" "U1"
           (world_answering (Failure "offline")) (globals_with_key None)).
  - repeat split.
  - intros H. apply search_hello_iff in H. vm_compute in H. discriminate.
  - apply search_status_iff. reflexivity.
Defined.

(** X3 — The thanks rule.  An ordinary message that is no greeting, asks
    no "how are you" and holds no "ping", but holds "thanks" or "thank
    you" in any letter case, is answered by "You're welcome" to its
    sender. *)
Theorem thanks_rule (ev : dict) (t u : string) (w : World) (g : Globals) :
  plain_message ev t u ->
  ~ greeting t -> ~ inquiry t -> ~ ping t ->
  thanks t ->
  on_event ev w g
  = Outcome g [Say ("You're welcome, <@" ++ u ++ ">!")] (Return tt).
Proof.
  intros Hev Hg Hi Hp Ht.
  rewrite (canned_rule_runs
             [ Bolt.Listener (Bolt.message re_hello) message_hello;
               Bolt.Listener (Bolt.message re_status) message_status;
               Bolt.Listener (Bolt.message re_ping) ping_pong ]
             (Bolt.Listener (Bolt.message re_thanks) thank_you_response)
             (tl (tl (tl (tl canned)))) ev w g eq_refl).
  - cbn [Bolt.function]. unfold thank_you_response.
    apply reply_to_sender with (before := "You're welcome, <@") (after := ">!").
    apply Hev.
  - repeat constructor; declined ev t u.
  - apply takes_plain with (t := t) (u := u);
      [assumption | reflexivity | now apply search_thanks_iff].
Qed.

Lemma thanks_rule_example :
  on_event (message_event "ok, Thank You!" "channel")
    (world_answering (Failure "offline")) (globals_with_key None)
  = Outcome (globals_with_key None) [Say "You're welcome, <@U1>!"] (Return tt).
Proof.
  apply (thanks_rule (message_event "ok, Thank You!" "channel")
           "ok, Thank You!" "U1"
           (world_answering (Failure "offline")) (globals_with_key None)).
  - repeat split.
  - intros H. apply search_hello_iff in H. vm_compute in H. discriminate.
  - intros H. apply search_status_iff in H. vm_compute in H. discriminate.
  - intros H. apply search_exact_iff in H. vm_compute in H. discriminate.
  - apply search_thanks_iff. reflexivity.
Defined.

(** X4 — The tip rule.  An ordinary message that none of the four rules
    before it takes and that holds "give me a tip" is answered by one of
    the three tips, the one the random draw picks; and every tip is the
    answer for some draw. *)
Theorem tip_rule (ev : dict) (t u : string) (w : World) (g : Globals) :
  plain_message ev t u ->
  ~ greeting t -> ~ inquiry t -> ~ ping t -> ~ thanks t ->
  tip_request t ->
  on_event ev w g
  = Outcome g [Say (nth (random_int w mod 3) tips "")] (Return tt)
  /\ In (nth (random_int w mod 3) tips "") tips
  /\ forall tip, In tip tips -> exists n, n < 3 /\ nth n tips "" = tip.
Proof.
  intros Hev Hg Hi Hp Ht Hr. split; [|split].
  - rewrite (canned_rule_runs
               [ Bolt.Listener (Bolt.message re_hello) message_hello;
                 Bolt.Listener (Bolt.message re_status) message_status;
                 Bolt.Listener (Bolt.message re_ping) ping_pong;
                 Bolt.Listener (Bolt.message re_thanks) thank_you_response ]
               (Bolt.Listener (Bolt.message re_tip) give_tip)
               (tl (tl (tl (tl (tl canned))))) ev w g eq_refl).
    + cbn [Bolt.function].
      assert (H : random_int w mod 3 < 3) by (apply Nat.mod_upper_bound; lia).
      cbv [give_tip random_choice tips bind world ret say emit value_of trace
           globals_after List.length List.app].
      now destruct (random_int w mod 3) as [|[|[|n]]]; [| | |lia].
    + repeat constructor; declined ev t u.
    + apply takes_plain with (t := t) (u := u);
        [assumption | reflexivity | now apply search_exact_iff].
  - apply nth_In. apply Nat.mod_upper_bound. cbn. lia.
  - intros tip [<-|[<-|[<-|[]]]];
      [exists 0 | exists 1 | exists 2]; split; (lia || reflexivity).
Qed.

Lemma tip_rule_example :
  on_event (message_event "please give me a tip" "channel")
    (world_answering (Failure "offline")) (globals_with_key None)
  = Outcome (globals_with_key None)
      [Say (nth (random_int (world_answering (Failure "offline")) mod 3) tips "")]
      (Return tt)
  /\ In (nth (random_int (world_answering (Failure "offline")) mod 3) tips "")
        tips
  /\ forall tip, In tip tips -> exists n, n < 3 /\ nth n tips "" = tip.
Proof.
  apply (tip_rule (message_event "please give me a tip" "channel")
           "please give me a tip" "U1"
           (world_answering (Failure "offline")) (globals_with_key None)).
  - repeat split.
  - intros H. apply search_hello_iff in H. vm_compute in H. discriminate.
  - intros H. apply search_status_iff in H. vm_compute in H. discriminate.
  - intros H. apply search_exact_iff in H. vm_compute in H. discriminate.
  - intros H. apply search_thanks_iff in H. vm_compute in H. discriminate.
  - apply search_exact_iff. reflexivity.
Defined.

(** X5 — The farewell rule.  An ordinary message that begins with the
    word "bye" or "goodbye", in any letter case, and that the status, ping,
    thanks and tip rules do not take, is answered by the farewell to its
    sender. *)
Theorem farewell_rule (ev : dict) (t u : string) (w : World) (g : Globals) :
  plain_message ev t u ->
  ~ inquiry t -> ~ ping t -> ~ thanks t -> ~ tip_request t ->
  farewell t ->
  on_event ev w g
  = Outcome g [Say ("Goodbye, <@" ++ u ++ ">! Hope to talk to you again soon.")]
      (Return tt).
Proof.
  intros Hev Hi Hp Ht Hr Hf.
  pose proof (farewell_not_greeting t Hf) as Hg.
  rewrite (canned_rule_runs
             [ Bolt.Listener (Bolt.message re_hello) message_hello;
               Bolt.Listener (Bolt.message re_status) message_status;
               Bolt.Listener (Bolt.message re_ping) ping_pong;
               Bolt.Listener (Bolt.message re_thanks) thank_you_response;
               Bolt.Listener (Bolt.message re_tip) give_tip ]
             (Bolt.Listener (Bolt.message re_bye) message_bye)
             [] ev w g eq_refl).
  - cbn [Bolt.function]. unfold message_bye.
    apply reply_to_sender
      with (before := "Goodbye, <@")
           (after := ">! Hope to talk to you again soon.").
    apply Hev.
  - repeat constructor; declined ev t u.
  - apply takes_plain with (t := t) (u := u);
      [assumption | reflexivity | now apply search_bye_iff].
Qed.

Lemma farewell_rule_example :
  on_event (message_event "GoodBye everyone" "channel")
    (world_answering (Failure "offline")) (globals_with_key None)
  = Outcome (globals_with_key None)
      [Say "Goodbye, <@U1>! Hope to talk to you again soon."] (Return tt).
Proof.
  apply (farewell_rule (message_event "GoodBye everyone" "channel")
           "GoodBye everyone" "U1"
           (world_answering (Failure "offline")) (globals_with_key None)).
  - repeat split.
  - intros H. apply search_status_iff in H. vm_compute in H. discriminate.
  - intros H. apply search_exact_iff in H. vm_compute in H. discriminate.
  - intros H. apply search_thanks_iff in H. vm_compute in H. discriminate.
  - intros H. apply search_exact_iff in H. vm_compute in H. discriminate.
  - apply search_bye_iff. reflexivity.
Defined.

(* ===================================================================== *)
(** ** The other events *)
(* ===================================================================== *)

Lemma accepts_message_other (keyword : Re.pattern) (f : dict -> M unit)
      (ev : dict) (v : value) (w : World) (g : Globals) :
  lookup "type" ev = Some v ->
  eq_str v "message" = false ->
  value_of (Bolt.accepts (Bolt.Listener (Bolt.message keyword) f) ev w g)
  = Return false.
Proof.
  intros Htype Hv. unfold Bolt.accepts, Bolt.matches, getitem.
  rewrite Htype. cbn. now rewrite Hv.
Qed.

Lemma canned_decline_other (ev : dict) (v : value) (w : World) (g : Globals) :
  lookup "type" ev = Some v ->
  eq_str v "message" = false ->
  Forall (fun l => value_of (Bolt.accepts l ev w g) = Return false) canned.
Proof.
  intros Htype Hv. unfold canned.
  repeat constructor; now apply accepts_message_other with (v := v).
Qed.

Lemma dispatch_none (ls : list Bolt.listener) (ev : dict)
      (w : World) (g : Globals) :
  Forall (fun l' => value_of (Bolt.accepts l' ev w g) = Return false) ls ->
  Bolt.dispatch ls ev w g = Outcome g [] (Return tt).
Proof.
  induction 1 as [|l ls Hl _ IH]; [reflexivity|].
  now rewrite dispatch_cons, Hl.
Qed.

(** X6 — The welcome.  An event of type "member_joined_channel" with a
    user is answered by the welcome to that user, whatever else the event
    carries; no rule on texts looks at it. *)
Theorem welcome_rule (ev : dict) (u : string) (w : World) (g : Globals) :
  lookup "type" ev = Some (VStr "member_joined_channel") ->
  lookup "user" ev = Some (VStr u) ->
  on_event ev w g
  = Outcome g [Say ("Welcome, <@" ++ u ++ ">! I'm glad you're here.")]
      (Return tt).
Proof.
  intros Htype Huser. unfold on_event, app.
  rewrite (dispatch_first_match canned
             [ Bolt.Listener (Bolt.event "message") handle_general_message ]
             (Bolt.Listener (Bolt.event "member_joined_channel")
                welcome_new_member) ev w g).
  - cbn [Bolt.function]. unfold welcome_new_member.
    now apply reply_to_sender
      with (before := "Welcome, <@") (after := ">! I'm glad you're here.").
  - now apply canned_decline_other with (v := VStr "member_joined_channel").
  - now rewrite accepts_event with (v := VStr "member_joined_channel").
Qed.

Lemma welcome_rule_example :
  on_event [ ("type", VStr "member_joined_channel"); ("user", VStr "U999");
             ("channel", VStr "C1"); ("text", VStr "hello");
             ("bot_id", VStr "B1") ]
    (world_answering (Failure "offline")) (globals_with_key None)
  = Outcome (globals_with_key None)
      [Say "Welcome, <@U999>! I'm glad you're here."] (Return tt).
Proof.
  apply (welcome_rule
           [ ("type", VStr "member_joined_channel"); ("user", VStr "U999");
             ("channel", VStr "C1"); ("text", VStr "hello");
             ("bot_id", VStr "B1") ]
           "U999" (world_answering (Failure "offline")) (globals_with_key None));
    reflexivity.
Defined.

(** X7 — An event of any other type than "message" and
    "member_joined_channel" finds no listener: nothing is said, printed
    or requested, and nothing is raised. *)
Theorem other_events_ignored (ev : dict) (type : string)
        (w : World) (g : Globals) :
  lookup "type" ev = Some (VStr type) ->
  type <> "message" ->
  type <> "member_joined_channel" ->
  on_event ev w g = Outcome g [] (Return tt).
Proof.
  intros Htype Hm Hj. unfold on_event, app.
  apply dispatch_none. apply Forall_app. split.
  - apply canned_decline_other with (v := VStr type); [assumption|].
    now apply String.eqb_neq.
  - repeat constructor;
      rewrite accepts_event with (v := VStr type) by assumption;
      f_equal; now apply String.eqb_neq.
Qed.

Lemma other_events_ignored_example :
  on_event [ ("type", VStr "reaction_added"); ("user", VStr "U1");
             ("reaction", VStr "wave") ]
    (world_answering (Failure "offline")) (globals_with_key None)
  = Outcome (globals_with_key None) [] (Return tt).
Proof.
  apply (other_events_ignored
           [ ("type", VStr "reaction_added"); ("user", VStr "U1");
             ("reaction", VStr "wave") ]
           "reaction_added"
           (world_answering (Failure "offline")) (globals_with_key None));
    [reflexivity | discriminate | discriminate].
Defined.

(* ===================================================================== *)
(** ** The gateway, case by case *)
(* ===================================================================== *)

Lemma post_run (api_url : string) (headers : dict) (data : value)
      (w : World) (g : Globals) :
  Requests.post api_url headers data w g
  = Outcome g [HttpPost api_url headers data]
      match network w api_url data with
      | Failure text => Raise (TransportError text)
      | Answer code why doc =>
          Return {| Requests.url := api_url; Requests.status_code := code;
                    Requests.reason := why; Requests.body := doc |}
      end.
Proof.
  unfold Requests.post. rewrite bind_run. cbn.
  now destruct (network w api_url data).
Qed.

Lemma first_text_run (doc : value) (w : World) (g : Globals) :
  first_text doc w g = Outcome g [] (value_of (first_text doc w g)).
Proof.
  assert (H : tame no_effect (first_text doc)) by (unfold first_text; tame).
  destruct (H w g) as (Hg & Ht & _). apply no_effect_nil in Ht.
  rewrite <- (outcome_eta (first_text doc w g)) at 1. now rewrite Hg, Ht.
Qed.

Lemma raise_for_status_run (api_url why : string) (code : Z)
      (doc : option value) (w : World) (g : Globals) :
  Requests.raise_for_status
    {| Requests.url := api_url; Requests.status_code := code;
       Requests.reason := why; Requests.body := doc |} w g
  = Outcome g []
      (if is_error_status code
       then Raise (HTTPError (http_error_text code why api_url))
       else Return tt).
Proof.
  unfold Requests.raise_for_status, is_error_status, http_error_text.
  cbn [Requests.status_code Requests.reason Requests.url].
  destruct (Z.leb_spec 400 code), (Z.ltb_spec code 500),
    (Z.leb_spec 500 code), (Z.ltb_spec code 600);
    cbn; try reflexivity; lia.
Qed.

(** The request of the gateway, and the four ways it ends. *)
Lemma request_run (prompt api_url : string) (w : World) (g : Globals) :
  gemini_request prompt api_url w g
  = Outcome g [HttpPost api_url gemini_headers (gemini_payload prompt)]
      match network w api_url (gemini_payload prompt) with
      | Failure text => Raise (TransportError text)
      | Answer code why doc =>
          if is_error_status code
          then Raise (HTTPError (http_error_text code why api_url))
          else match doc with
               | Some result => value_of (first_text result w g)
               | None => Raise JSONDecodeError
               end
      end.
Proof.
  unfold gemini_request. rewrite bind_run, post_run.
  cbn [value_of trace globals_after].
  destruct (network w api_url (gemini_payload prompt)) as [text|code why doc];
    [reflexivity|].
  rewrite bind_run, raise_for_status_run. cbn [value_of trace globals_after].
  destruct (is_error_status code); [reflexivity|].
  rewrite bind_run. unfold Requests.json. cbn [Requests.body].
  destruct doc as [result|]; [|reflexivity].
  cbn [ret value_of trace globals_after]. now rewrite first_text_run.
Qed.

(** [get_gemini_response], unfolded once. *)
Lemma gateway_run (prompt : string) (w : World) (g : Globals) :
  get_gemini_response prompt w g
  = if key_missing (GEMINI_API_KEY g)
    then Outcome g [ Call "get_gemini_response" prompt;
                     Stdout "GEMINI_API_KEY is not set." ]
                 (Return (VStr offline_reply))
    else
      Outcome
        (globals_after
           (try_except (gemini_request prompt (gemini_url g))
              Requests.is_RequestException gemini_handler w g))
        (Call "get_gemini_response" prompt
         :: trace (try_except (gemini_request prompt (gemini_url g))
                     Requests.is_RequestException gemini_handler w g))
        (value_of
           (try_except (gemini_request prompt (gemini_url g))
              Requests.is_RequestException gemini_handler w g)).
Proof.
  unfold get_gemini_response.
  rewrite bind_run. cbn [emit value_of globals_after trace].
  rewrite bind_run. cbn [global value_of globals_after trace].
  now destruct (key_missing (GEMINI_API_KEY g)).
Qed.

Lemma handler_run (e : exn) (w : World) (g : Globals) :
  gemini_handler e w g
  = Outcome g [Stdout ("Error calling Gemini API: " ++ Requests.text_of e)]
      (Return (VStr trouble_reply)).
Proof. reflexivity. Qed.

(** A gateway run with a key, by what the request ends in. *)
Lemma gateway_online (prompt : string) (w : World) (g : Globals) :
  key_missing (GEMINI_API_KEY g) = false ->
  get_gemini_response prompt w g
  = match value_of (gemini_request prompt (gemini_url g) w g) with
    | Return v =>
        Outcome g
          [ Call "get_gemini_response" prompt;
            HttpPost (gemini_url g) gemini_headers (gemini_payload prompt) ]
          (Return v)
    | Raise e =>
        if Requests.is_RequestException w e
        then Outcome g
               [ Call "get_gemini_response" prompt;
                 HttpPost (gemini_url g) gemini_headers (gemini_payload prompt);
                 Stdout ("Error calling Gemini API: " ++ Requests.text_of e) ]
               (Return (VStr trouble_reply))
        else Outcome g
               [ Call "get_gemini_response" prompt;
                 HttpPost (gemini_url g) gemini_headers (gemini_payload prompt) ]
               (Raise e)
    end.
Proof.
  intros Hk. rewrite gateway_run, Hk, try_run, request_run.
  cbn [value_of trace globals_after].
  destruct (match network w (gemini_url g) (gemini_payload prompt) with
            | Failure _ => _ | Answer _ _ _ => _ end) as [v|e];
    [reflexivity|].
  destruct (Requests.is_RequestException w e); reflexivity.
Qed.

(** X8 — With a key set, a request that meets no response, or a response
    with an error status (400 to 599), makes the gateway print one line,
    "Error calling Gemini API: " and the text of the error, and return
    the reply for trouble.  One request was made; it is not repeated. *)
Theorem gateway_degrades (prompt : string) (w : World) (g : Globals) :
  key_missing (GEMINI_API_KEY g) = false ->
  (forall text,
      network w (gemini_url g) (gemini_payload prompt) = Failure text ->
      get_gemini_response prompt w g
      = Outcome g
          [ Call "get_gemini_response" prompt;
            HttpPost (gemini_url g) gemini_headers (gemini_payload prompt);
            Stdout ("Error calling Gemini API: " ++ text) ]
          (Return (VStr trouble_reply)))
  /\ (forall code why doc,
         network w (gemini_url g) (gemini_payload prompt) = Answer code why doc ->
         (400 <= code < 600)%Z ->
         get_gemini_response prompt w g
         = Outcome g
             [ Call "get_gemini_response" prompt;
               HttpPost (gemini_url g) gemini_headers (gemini_payload prompt);
               Stdout ("Error calling Gemini API: "
                       ++ http_error_text code why (gemini_url g)) ]
             (Return (VStr trouble_reply))).
Proof.
  intros Hk. split.
  - intros text Hn. rewrite (gateway_online prompt w g Hk), request_run, Hn.
    reflexivity.
  - intros code why doc Hn Hc.
    rewrite (gateway_online prompt w g Hk), request_run, Hn.
    assert (He : is_error_status code = true).
    { unfold is_error_status. apply andb_true_intro.
      split; [apply Z.leb_le | apply Z.ltb_lt]; lia. }
    rewrite He. reflexivity.
Qed.

Lemma gateway_degrades_example :
  (forall text,
      network (world_answering (Answer 500 "Internal Server Error" None))
        (gemini_url (globals_with_key (Some "k"))) (gemini_payload "hi")
      = Failure text ->
      get_gemini_response "hi"
        (world_answering (Answer 500 "Internal Server Error" None))
        (globals_with_key (Some "k"))
      = Outcome (globals_with_key (Some "k"))
          [ Call "get_gemini_response" "hi";
            HttpPost (gemini_url (globals_with_key (Some "k"))) gemini_headers
              (gemini_payload "hi");
            Stdout ("Error calling Gemini API: " ++ text) ]
          (Return (VStr trouble_reply)))
  /\ (forall code why doc,
         network (world_answering (Answer 500 "Internal Server Error" None))
           (gemini_url (globals_with_key (Some "k"))) (gemini_payload "hi")
         = Answer code why doc ->
         (400 <= code < 600)%Z ->
         get_gemini_response "hi"
           (world_answering (Answer 500 "Internal Server Error" None))
           (globals_with_key (Some "k"))
         = Outcome (globals_with_key (Some "k"))
             [ Call "get_gemini_response" "hi";
               HttpPost (gemini_url (globals_with_key (Some "k")))
                 gemini_headers (gemini_payload "hi");
               Stdout ("Error calling Gemini API: "
                       ++ http_error_text code why
                            (gemini_url (globals_with_key (Some "k")))) ]
             (Return (VStr trouble_reply))).
Proof.
  apply (gateway_degrades "hi"
           (world_answering (Answer 500 "Internal Server Error" None))
           (globals_with_key (Some "k"))).
  reflexivity.
Defined.

Lemma first_text_found (d c ct p : dict) (more_c more_p : list value)
      (v : value) (w : World) (g : Globals) :
  lookup "candidates" d = Some (VList (VDict c :: more_c)) ->
  lookup "content" c = Some (VDict ct) ->
  lookup "parts" ct = Some (VList (VDict p :: more_p)) ->
  lookup "text" p = Some v ->
  value_of (first_text (VDict d) w g) = Return v.
Proof.
  intros H1 H2 H3 H4. unfold first_text, dot_get, get.
  rewrite H1. cbn. rewrite H2. cbn. rewrite H3. cbn. now rewrite H4.
Qed.

(** X9 — With a key set and a response without error status whose JSON
    document has the expected shape, the gateway returns what the document
    has at [candidates[0].content.parts[0].text], whatever the further
    candidates and parts are; it prints nothing. *)
Theorem gateway_returns_first_text (prompt : string) (w : World) (g : Globals)
        (code : Z) (why : string) (d c ct p : dict)
        (more_c more_p : list value) (v : value) :
  key_missing (GEMINI_API_KEY g) = false ->
  network w (gemini_url g) (gemini_payload prompt)
  = Answer code why (Some (VDict d)) ->
  is_error_status code = false ->
  lookup "candidates" d = Some (VList (VDict c :: more_c)) ->
  lookup "content" c = Some (VDict ct) ->
  lookup "parts" ct = Some (VList (VDict p :: more_p)) ->
  lookup "text" p = Some v ->
  get_gemini_response prompt w g
  = Outcome g
      [ Call "get_gemini_response" prompt;
        HttpPost (gemini_url g) gemini_headers (gemini_payload prompt) ]
      (Return v).
Proof.
  intros Hk Hn Hc H1 H2 H3 H4.
  rewrite (gateway_online prompt w g Hk), request_run, Hn, Hc.
  now rewrite (first_text_found d c ct p more_c more_p v w g H1 H2 H3 H4).
Qed.

Lemma gateway_returns_first_text_example :
  get_gemini_response "explain recursion"
    (world_answering
       (Answer 200 "OK"
          (Some (VDict
                   [ ("candidates",
                      VList
                        [ VDict
                            [ ("content",
                               VDict
                                 [("parts",
                                   VList [ VDict [("text", VStr "first")];
                                           VDict [("text", VStr "second")] ])]);
                              ("finishReason", VStr "STOP") ];
                          VDict [("content", VNone)] ]) ]))))
    (globals_with_key (Some "k"))
  = Outcome (globals_with_key (Some "k"))
      [ Call "get_gemini_response" "explain recursion";
        HttpPost (gemini_url (globals_with_key (Some "k"))) gemini_headers
          (gemini_payload "explain recursion") ]
      (Return (VStr "first")).
Proof.
  apply (gateway_returns_first_text "explain recursion" _
           (globals_with_key (Some "k")) 200 "OK"
           [ ("candidates",
              VList
                [ VDict
                    [ ("content",
                       VDict
                         [("parts",
                           VList [ VDict [("text", VStr "first")];
                                   VDict [("text", VStr "second")] ])]);
                      ("finishReason", VStr "STOP") ];
                  VDict [("content", VNone)] ]) ]
           [ ("content",
              VDict
                [("parts",
                  VList [ VDict [("text", VStr "first")];
                          VDict [("text", VStr "second")] ])]);
             ("finishReason", VStr "STOP") ]
           [("parts",
             VList [ VDict [("text", VStr "first")];
                     VDict [("text", VStr "second")] ])]
           [("text", VStr "first")]
           [ VDict [("content", VNone)] ]
           [ VDict [("text", VStr "second")] ]
           (VStr "first"));
    reflexivity.
Defined.

(** X10 — With a key set and a response without error status whose
    document is an object in which [candidates], or the first candidate's
    [content], or its [parts], or the first part's [text] is missing, the
    gateway returns "No response found." and prints nothing. *)
Theorem gateway_defaults (prompt : string) (w : World) (g : Globals)
        (code : Z) (why : string) (d : dict) :
  key_missing (GEMINI_API_KEY g) = false ->
  network w (gemini_url g) (gemini_payload prompt)
  = Answer code why (Some (VDict d)) ->
  is_error_status code = false ->
  lacks_text d ->
  get_gemini_response prompt w g
  = Outcome g
      [ Call "get_gemini_response" prompt;
        HttpPost (gemini_url g) gemini_headers (gemini_payload prompt) ]
      (Return (VStr "No response found.")).
Proof.
  intros Hk Hn Hc Hd.
  rewrite (gateway_online prompt w g Hk), request_run, Hn, Hc.
  assert (E : value_of (first_text (VDict d) w g)
              = Return (VStr "No response found.")).
  { unfold first_text, dot_get, get.
    destruct Hd as [H1|(c & more_c & H1 & [H2|(ct & H2 & [H3|(p & more_p & H3 & H4)])])];
      rewrite H1; cbn; try reflexivity;
      rewrite H2; cbn; try reflexivity;
      rewrite H3; cbn; try reflexivity.
    now rewrite H4. }
  now rewrite E.
Qed.

Lemma gateway_defaults_example :
  get_gemini_response "hi"
    (world_answering
       (Answer 200 "OK"
          (Some (VDict [("candidates",
                         VList [VDict [("finishReason", VStr "SAFETY")]])]))))
    (globals_with_key (Some "k"))
  = Outcome (globals_with_key (Some "k"))
      [ Call "get_gemini_response" "hi";
        HttpPost (gemini_url (globals_with_key (Some "k"))) gemini_headers
          (gemini_payload "hi") ]
      (Return (VStr "No response found.")).
Proof.
  apply (gateway_defaults "hi" _ (globals_with_key (Some "k")) 200 "OK"
           [("candidates", VList [VDict [("finishReason", VStr "SAFETY")]])]);
    try reflexivity.
  right. exists [("finishReason", VStr "SAFETY")], [].
  split; [reflexivity | left; reflexivity].
Defined.

(** X11 — Whatever the prompt and the world: without a key the gateway
    makes no request; with a key it makes exactly one, to the URL that ends
    in the key, with the JSON header and the prompt as the only text of
    the payload.  It never sends a second one. *)
Theorem gateway_one_request (prompt : string) (w : World) (g : Globals) :
  requests_of (trace (get_gemini_response prompt w g))
  = if key_missing (GEMINI_API_KEY g) then []
    else [ HttpPost (api_base ++ key_text (GEMINI_API_KEY g))
             [("Content-Type", VStr "application/json")]
             (VDict [("contents",
                      VList [VDict [("parts",
                                     VList [VDict [("text", VStr prompt)]])]])]) ].
Proof.
  destruct (key_missing (GEMINI_API_KEY g)) eqn:Hk.
  - now rewrite gateway_run, Hk.
  - rewrite (gateway_online prompt w g Hk).
    destruct (value_of (gemini_request prompt (gemini_url g) w g)) as [v|e];
      [reflexivity|].
    now destruct (Requests.is_RequestException w e).
Qed.

(** X12 — No exception of [requests] leaves the gateway: whatever it
    raises is no RequestException, and it raises only after its one
    request got a response without error status. *)
Theorem gateway_absorbs_request_errors (prompt : string) (w : World)
        (g : Globals) (e : exn) :
  value_of (get_gemini_response prompt w g) = Raise e ->
  Requests.is_RequestException w e = false
  /\ key_missing (GEMINI_API_KEY g) = false
  /\ exists code why doc,
       network w (gemini_url g) (gemini_payload prompt) = Answer code why doc
       /\ is_error_status code = false.
Proof.
  destruct (key_missing (GEMINI_API_KEY g)) eqn:Hk.
  - rewrite gateway_run, Hk. discriminate.
  - rewrite (gateway_online prompt w g Hk).
    destruct (value_of (gemini_request prompt (gemini_url g) w g))
      as [v|e0] eqn:Er; [discriminate|].
    destruct (Requests.is_RequestException w e0) eqn:Ee; [discriminate|].
    intros [= <-]. repeat split; [exact Ee|].
    rewrite request_run in Er. cbn [value_of] in Er.
    destruct (network w (gemini_url g) (gemini_payload prompt))
      as [text|code why doc].
    + injection Er as <-. discriminate.
    + exists code, why, doc. split; [reflexivity|].
      destruct (is_error_status code); [|reflexivity].
      injection Er as <-. discriminate.
Qed.

Lemma gateway_absorbs_request_errors_example :
  Requests.is_RequestException
    (world_answering (Answer 200 "OK" (Some (VList [])))) AttributeError
  = false
  /\ key_missing (GEMINI_API_KEY (globals_with_key (Some "k"))) = false
  /\ exists code why doc,
       network (world_answering (Answer 200 "OK" (Some (VList []))))
         (gemini_url (globals_with_key (Some "k"))) (gemini_payload "hi")
       = Answer code why doc
       /\ is_error_status code = false.
Proof.
  apply (gateway_absorbs_request_errors "hi"
           (world_answering (Answer 200 "OK" (Some (VList []))))
           (globals_with_key (Some "k")) AttributeError).
  reflexivity.
Defined.

(* ===================================================================== *)
(** ** When the gateway is used *)
(* ===================================================================== *)

Lemma posts_app (t t' : list effect) : posts (t ++ t') = (posts t ++ posts t')%list.
Proof.
  induction t as [|e t IH]; [reflexivity|].
  destruct e; simpl; now rewrite IH.
Qed.

Lemma gateway_posts (prompt : string) (w : World) (g : Globals) :
  posts (trace (get_gemini_response prompt w g))
  = if key_missing (GEMINI_API_KEY g) then [] else [gemini_url g].
Proof.
  destruct (key_missing (GEMINI_API_KEY g)) eqn:Hk.
  - now rewrite gateway_run, Hk.
  - rewrite (gateway_online prompt w g Hk).
    destruct (value_of (gemini_request prompt (gemini_url g) w g)) as [v|e];
      [reflexivity|].
    now destruct (Requests.is_RequestException w e).
Qed.

Lemma answer_with_posts (prompt : string) (w : World) (g : Globals) :
  posts (trace (answer_with prompt w g))
  = if key_missing (GEMINI_API_KEY g) then [] else [gemini_url g].
Proof.
  unfold answer_with. rewrite bind_run, globals_gateway.
  pose proof (gateway_posts prompt w g) as Hp.
  destruct (value_of (get_gemini_response prompt w g)) as [r|e];
    cbn [trace]; [|exact Hp].
  rewrite posts_app, Hp.
  replace (posts (trace ((reply <- str r ;; say reply)%py w g))) with (@nil string)
    by now destruct r.
  apply app_nil_r.
Qed.

(** An event either goes through the last three lines of the fallback
    handler, or makes no gateway call, no request and no printed line. *)
Lemma fallback_or_quiet (ev : dict) (w : World) (g : Globals) :
  (exists t,
      has_key "bot_id" ev = false /\ has_key "user" ev = true
      /\ lookup "text" ev = Some (VStr t) /\ qualifies ev t = true
      /\ trace (on_event ev w g)
         = trace (answer_with (strip (Re.sub_empty re_mention t)) w g))
  \/ (gateway_calls (trace (on_event ev w g)) = []
      /\ posts (trace (on_event ev w g)) = []
      /\ printed (trace (on_event ev w g)) = []).
Proof.
  unfold on_event.
  apply dispatch_inv
    with (P := fun o =>
                 (exists t,
                     has_key "bot_id" ev = false /\ has_key "user" ev = true
                     /\ lookup "text" ev = Some (VStr t)
                     /\ qualifies ev t = true
                     /\ trace o
                        = trace (answer_with
                                   (strip (Re.sub_empty re_mention t)) w g))
                 \/ (gateway_calls (trace o) = [] /\ posts (trace o) = []
                     /\ printed (trace o) = []));
    [right; auto | intros e; right; auto |].
  intros l Hl. destruct (app_listeners l Hl) as [H|[H|H]].
  - right. destruct (tame_canned l ev H w g) as (_ & Ht & _).
    apply is_say_no_call in Ht as (Hc & Hl' & Hp). auto.
  - right. rewrite H. destruct (tame_welcome_new_member ev w g) as (_ & Ht & _).
    apply is_say_no_call in Ht as (Hc & Hl' & Hp). auto.
  - rewrite H. clear l Hl H.
    destruct (has_key "bot_id" ev) eqn:Hbot.
    { right. now rewrite fallback_ignores_bots. }
    destruct (lookup "user" ev) as [u|] eqn:Huser.
    + destruct (lookup "text" ev) as [[| | |t| |]|] eqn:Htext;
        try (right; unfold handle_general_message, getitem, get;
             rewrite Hbot, Huser, Htext; now cbn).
      rewrite (fallback_run ev t u w g Hbot Htext Huser).
      destruct (qualifies ev t) eqn:Hq; [left | right; auto].
      exists t. unfold has_key. rewrite Huser. auto.
    + right. unfold handle_general_message, getitem.
      rewrite Hbot, Huser. now cbn.
Qed.

(** X13 — The gateway is entered, and a request is made, only for an event
    without [bot_id], with a sender and a text that holds a mention token
    or came in a direct message; and a request needs the key.  Every other
    event costs no call and prints nothing. *)
Theorem gateway_only_for_qualified (ev : dict) (w : World) (g : Globals) :
  (gateway_calls (trace (on_event ev w g)) <> []
   \/ posts (trace (on_event ev w g)) <> []
   \/ printed (trace (on_event ev w g)) <> []) ->
  has_key "bot_id" ev = false
  /\ has_key "user" ev = true
  /\ (exists t,
         lookup "text" ev = Some (VStr t)
         /\ (has_mention t \/ lookup "channel_type" ev = Some (VStr "im"))
         /\ gateway_calls (trace (on_event ev w g))
            = [strip (Re.sub_empty re_mention t)])
  /\ posts (trace (on_event ev w g))
     = if key_missing (GEMINI_API_KEY g) then [] else [gemini_url g].
Proof.
  intros Hused.
  destruct (fallback_or_quiet ev w g)
    as [(t & Hbot & Huser & Htext & Hq & ->)|(Hc & Hp & Hl)].
  - split; [exact Hbot|]. split; [exact Huser|]. split.
    + exists t. split; [exact Htext|]. split; [now apply qualifies_iff|].
      apply answer_with_run.
    + apply answer_with_posts.
  - rewrite Hc, Hp, Hl in Hused. now destruct Hused as [H|[H|H]].
Qed.

Lemma gateway_only_for_qualified_example :
  has_key "bot_id" (message_event "what is a monad" "im") = false
  /\ has_key "user" (message_event "what is a monad" "im") = true
  /\ (exists t,
         lookup "text" (message_event "what is a monad" "im") = Some (VStr t)
         /\ (has_mention t
             \/ lookup "channel_type" (message_event "what is a monad" "im")
                = Some (VStr "im"))
         /\ gateway_calls
              (trace (on_event (message_event "what is a monad" "im")
                        (world_answering (Failure "offline"))
                        (globals_with_key (Some "k"))))
            = [strip (Re.sub_empty re_mention t)])
  /\ posts
       (trace (on_event (message_event "what is a monad" "im")
                 (world_answering (Failure "offline"))
                 (globals_with_key (Some "k"))))
     = if key_missing (GEMINI_API_KEY (globals_with_key (Some "k")))
       then [] else [gemini_url (globals_with_key (Some "k"))].
Proof.
  apply (gateway_only_for_qualified (message_event "what is a monad" "im")
           (world_answering (Failure "offline")) (globals_with_key (Some "k"))).
  left. vm_compute. discriminate.
Defined.

(** X14 — A program started without [GEMINI_API_KEY] in its environment
    (or with an empty one) answers every message that reaches the fallback
    and qualifies with the offline reply, prints its notice, and makes no
    request. *)
Theorem no_key_every_answer_offline (environ : string -> option string)
        (ev : dict) (t : string) (u : value) (w : World) :
  environ "GEMINI_API_KEY" = None \/ environ "GEMINI_API_KEY" = Some "" ->
  lookup "type" ev = Some (VStr "message") ->
  has_key "bot_id" ev = false ->
  lookup "text" ev = Some (VStr t) ->
  lookup "user" ev = Some u ->
  Forall (fun l =>
            value_of (Bolt.accepts l ev w (load_globals environ)) = Return false)
         canned ->
  has_mention t \/ lookup "channel_type" ev = Some (VStr "im") ->
  on_event ev w (load_globals environ)
  = Outcome (load_globals environ)
      [ Call "get_gemini_response" (strip (Re.sub_empty re_mention t));
        Stdout "GEMINI_API_KEY is not set.";
        Say "I can't answer that right now. My AI brain is offline." ]
      (Return tt).
Proof.
  intros Hkey Htype Hbot Htext Huser Hcanned Hq.
  apply qualifies_iff in Hq.
  rewrite (unmatched_message_falls_back ev w _ Htype Hcanned),
    (fallback_run ev t u w _ Hbot Htext Huser), Hq.
  unfold answer_with. rewrite bind_run, gateway_run.
  assert (Hk : key_missing (GEMINI_API_KEY (load_globals environ)) = true)
    by (cbn [load_globals GEMINI_API_KEY]; destruct Hkey as [-> | ->];
        reflexivity).
  rewrite Hk. reflexivity.
Qed.

Lemma no_key_every_answer_offline_example :
  on_event (message_event "<@U123> explain recursion" "channel")
    (world_answering (Answer 200 "OK" (Some (generated "Hi!"))))
    (load_globals (fun _ => None))
  = Outcome (load_globals (fun _ => None))
      [ Call "get_gemini_response"
          (strip (Re.sub_empty re_mention "<@U123> explain recursion"));
        Stdout "GEMINI_API_KEY is not set.";
        Say "I can't answer that right now. My AI brain is offline." ]
      (Return tt).
Proof.
  apply (no_key_every_answer_offline (fun _ => None)
           (message_event "<@U123> explain recursion" "channel")
           "<@U123> explain recursion" (VStr "U1")
           (world_answering (Answer 200 "OK" (Some (generated "Hi!")))));
    try reflexivity.
  - left. reflexivity.
  - repeat constructor.
  - left. exists "", "U123", " explain recursion".
    split; [split; [discriminate | reflexivity] | reflexivity].
Defined.

(* ===================================================================== *)
(** ** A greeting answers a greeting *)
(* ===================================================================== *)

Lemma greeting_fires (ev : dict) (t u : string) (w : World) (g : Globals) :
  plain_message ev t u ->
  greeting t ->
  on_event ev w g = Outcome g [Say ("Hello, <@" ++ u ++ ">! 👋")] (Return tt).
Proof.
  intros Hev H.
  rewrite (canned_rule_runs []
             (Bolt.Listener (Bolt.message re_hello) message_hello)
             (tl canned) ev w g eq_refl (Forall_nil _)).
  - cbn [Bolt.function]. unfold message_hello.
    apply reply_to_sender with (before := "Hello, <@") (after := ">! 👋").
    apply Hev.
  - apply takes_plain with (t := t) (u := u);
      [assumption | reflexivity | now apply search_hello_iff].
Qed.

(** X15 — The greeting the program sends is itself a greeting to the
    program: an ordinary message event whose text is the greeting of any
    user [v] is answered with the greeting of its sender, also when the
    event carries [bot_id]. *)
Theorem greeting_answers_greeting (ev : dict) (u v : string)
        (w : World) (g : Globals) :
  plain_message ev ("Hello, <@" ++ v ++ ">! 👋") u ->
  on_event ev w g = Outcome g [Say ("Hello, <@" ++ u ++ ">! 👋")] (Return tt).
Proof.
  intros Hev. apply greeting_fires with (t := "Hello, <@" ++ v ++ ">! 👋");
    [exact Hev|].
  left. exists "Hello", (", <@" ++ v ++ ">! 👋"). repeat split.
Qed.

Lemma greeting_answers_greeting_example :
  on_event (bot_message_event "Hello, <@U1>! 👋" "channel")
    (world_answering (Failure "offline")) (globals_with_key None)
  = Outcome (globals_with_key None) [Say "Hello, <@U1>! 👋"] (Return tt).
Proof.
  apply (greeting_answers_greeting
           (bot_message_event "Hello, <@U1>! 👋" "channel") "U1" "U1"
           (world_answering (Failure "offline")) (globals_with_key None)).
  repeat split.
Defined.

(* ===================================================================== *)
(** ** Responses the gateway cannot read *)
(* ===================================================================== *)

(** X16 — With a key set and a response without error status: a body that
    decodes to something else than an object (a list, a string, a number,
    [null]) makes the gateway raise [AttributeError]; a body that is no
    JSON at all is absorbed like a failed request when the JSONDecodeError
    of [requests] is a RequestException, and leaves the gateway
    otherwise. *)
Theorem gateway_unreadable_body (prompt : string) (w : World) (g : Globals)
        (code : Z) (why : string) (body : option value) :
  key_missing (GEMINI_API_KEY g) = false ->
  network w (gemini_url g) (gemini_payload prompt) = Answer code why body ->
  is_error_status code = false ->
  (forall doc,
      body = Some doc ->
      (forall d, doc <> VDict d) ->
      value_of (get_gemini_response prompt w g) = Raise AttributeError)
  /\ (body = None ->
      get_gemini_response prompt w g
      = if json_error_is_request_exception w
        then Outcome g
               [ Call "get_gemini_response" prompt;
                 HttpPost (gemini_url g) gemini_headers (gemini_payload prompt);
                 Stdout ("Error calling Gemini API: "
                         ++ Requests.text_of JSONDecodeError) ]
               (Return (VStr trouble_reply))
        else Outcome g
               [ Call "get_gemini_response" prompt;
                 HttpPost (gemini_url g) gemini_headers (gemini_payload prompt) ]
               (Raise JSONDecodeError)).
Proof.
  intros Hk Hn Hc. split.
  - intros doc -> Hdoc.
    rewrite (gateway_online prompt w g Hk), request_run, Hn, Hc.
    destruct doc as [| | | | |d]; try reflexivity.
    now destruct (Hdoc d).
  - intros ->.
    rewrite (gateway_online prompt w g Hk), request_run, Hn, Hc.
    reflexivity.
Qed.

Lemma gateway_unreadable_body_example :
  (forall doc,
      Some (VList [VStr "unexpected"]) = Some doc ->
      (forall d, doc <> VDict d) ->
      value_of
        (get_gemini_response "hi"
           (world_answering (Answer 200 "OK" (Some (VList [VStr "unexpected"]))))
           (globals_with_key (Some "k")))
      = Raise AttributeError)
  /\ (Some (VList [VStr "unexpected"]) = None ->
      get_gemini_response "hi"
        (world_answering (Answer 200 "OK" (Some (VList [VStr "unexpected"]))))
        (globals_with_key (Some "k"))
      = if json_error_is_request_exception
             (world_answering
                (Answer 200 "OK" (Some (VList [VStr "unexpected"]))))
        then Outcome (globals_with_key (Some "k"))
               [ Call "get_gemini_response" "hi";
                 HttpPost (gemini_url (globals_with_key (Some "k")))
                   gemini_headers (gemini_payload "hi");
                 Stdout ("Error calling Gemini API: "
                         ++ Requests.text_of JSONDecodeError) ]
               (Return (VStr trouble_reply))
        else Outcome (globals_with_key (Some "k"))
               [ Call "get_gemini_response" "hi";
                 HttpPost (gemini_url (globals_with_key (Some "k")))
                   gemini_headers (gemini_payload "hi") ]
               (Raise JSONDecodeError)).
Proof.
  apply (gateway_unreadable_body "hi"
           (world_answering (Answer 200 "OK" (Some (VList [VStr "unexpected"]))))
           (globals_with_key (Some "k")) 200 "OK"
           (Some (VList [VStr "unexpected"])));
    reflexivity.
Defined.

(* ===================================================================== *)
(** ** The shape of the prompt *)
(* ===================================================================== *)

Lemma lstrip_head (s : string) (c : ascii) (rest : string) :
  lstrip s = String c rest -> is_space c = false.
Proof.
  induction s as [|x s IH]; simpl; [discriminate|].
  destruct (is_space x) eqn:E; [exact IH|].
  now intros [= <- _].
Qed.

Lemma rstrip_head (s : string) (c : ascii) (rest : string) :
  rstrip s = String c rest -> exists rest', s = String c rest'.
Proof.
  destruct s as [|x s]; simpl; [discriminate|].
  destruct (is_space x && is_empty (rstrip s)); [discriminate|].
  intros [= <- _]. now exists s.
Qed.

Lemma rstrip_last (s pre : string) (c : ascii) :
  rstrip s = pre ++ String c "" -> is_space c = false.
Proof.
  revert pre. induction s as [|x s IH]; intros pre; simpl.
  - destruct pre; discriminate.
  - destruct (is_space x) eqn:Ex; simpl.
    + destruct (rstrip s) as [|y r] eqn:Er; simpl; [destruct pre; discriminate|].
      destruct pre as [|z pre]; simpl; [discriminate|].
      intros [= _ H]. now apply IH with (pre := pre).
    + destruct pre as [|z pre]; simpl.
      * intros [= <- _]. exact Ex.
      * intros [= _ H]. now apply IH with (pre := pre).
Qed.

(** X17 — A prompt that reaches the gateway neither begins nor ends with
    white space. *)
Theorem prompt_is_trimmed (ev : dict) (w : World) (g : Globals) (p : string) :
  In p (gateway_calls (trace (on_event ev w g))) ->
  (forall c rest, p = String c rest -> is_space c = false)
  /\ (forall pre c, p = pre ++ String c "" -> is_space c = false).
Proof.
  intros H. apply calls_on_event, fallback_calls in H as (t & _ & ->).
  unfold strip. split.
  - intros c rest H.
    destruct (rstrip_head _ _ _ H) as [rest' H'].
    now apply lstrip_head in H'.
  - intros pre c H. now apply rstrip_last in H.
Qed.

Lemma prompt_is_trimmed_example :
  (forall c rest, "explain recursion" = String c rest -> is_space c = false)
  /\ (forall pre c,
         "explain recursion" = pre ++ String c "" -> is_space c = false).
Proof.
  apply (prompt_is_trimmed
           (message_event "  <@U123>  explain recursion  " "channel")
           (world_answering (Failure "offline")) (globals_with_key None)
           "explain recursion").
  left. reflexivity.
Defined.

Lemma sub_mention_nothing (t : string) (prev : option ascii) :
  Re.search_from re_mention prev t = false ->
  Re.sub_from re_mention 0 prev t = t.
Proof.
  revert prev. induction t as [|c t IH]; intros prev; [reflexivity|].
  rewrite search_from_unfold, sub_from_here.
  destruct (Re.match_here re_mention prev (String c t)); [discriminate|].
  intros H. now rewrite IH.
Qed.

(** X18 — A direct message that holds no mention token is handed to the
    gateway as it is, but for the white space around it: nothing inside
    the text is removed or changed. *)
Theorem direct_message_prompt (ev : dict) (t : string) (u : value)
        (w : World) (g : Globals) :
  has_key "bot_id" ev = false ->
  lookup "user" ev = Some u ->
  lookup "text" ev = Some (VStr t) ->
  lookup "channel_type" ev = Some (VStr "im") ->
  ~ has_mention t ->
  gateway_calls (trace (handle_general_message ev w g)) = [strip t].
Proof.
  intros Hbot Huser Htext Him Hno.
  assert (Hq : qualifies ev t = true) by (apply qualifies_iff; now right).
  rewrite (fallback_run ev t u w g Hbot Htext Huser), Hq.
  assert (Hs : Re.sub_empty re_mention t = t).
  { apply sub_mention_nothing.
    destruct (Re.search_from re_mention None t) eqn:E; [|reflexivity].
    now apply search_from_mention_iff in E. }
  rewrite Hs. apply answer_with_run.
Qed.

Lemma direct_message_prompt_example :
  gateway_calls
    (trace (handle_general_message
              (message_event " what is <b>a@b</b> > c? " "im")
              (world_answering (Failure "offline")) (globals_with_key None)))
  = [strip " what is <b>a@b</b> > c? "].
Proof.
  apply (direct_message_prompt
           (message_event " what is <b>a@b</b> > c? " "im")
           " what is <b>a@b</b> > c? " (VStr "U1")
           (world_answering (Failure "offline")) (globals_with_key None));
    try reflexivity.
  intros H. apply search_mention_iff in H. vm_compute in H. discriminate.
Defined.
